(** * pibooth: the photobooth workflow coordinator ([pibooth/ptb.py])

    A shallow embedding of the six workflow states, the event finders and the
    main loop of [PtbApplication], together with the properties of the
    workflow that the specification states.

    Python objects become records, the attributes shared between the states
    become fields of [PtbApplication], and every call to a collaborator
    (window, camera, lights, printer, GPIO, file system) is recorded in a log
    of [action]s.  What the program reads from its surroundings during one
    iteration of the main loop (pending events, keyboard modifiers, the clock,
    the printer status, failing hardware) is gathered in the record [World]. *)

From Stdlib Require Import ZArith QArith List String Ascii Bool Lia.
From Stdlib Require Import DecimalString.
From Stdlib Require DecimalNat DecimalFacts.
Import ListNotations.

Local Open Scope string_scope.
Local Open Scope Z_scope.

(** ** Python helpers used by the program *)

Module Posixpath.

Definition startswith_sep (b : string) : bool :=
  match b with
  | String c _ => Ascii.eqb c "/"
  | EmptyString => false
  end.

Fixpoint endswith_sep (a : string) : bool :=
  match a with
  | EmptyString => false
  | String c EmptyString => Ascii.eqb c "/"
  | String _ rest => endswith_sep rest
  end.

(** [os.path.join(a, b)] of the POSIX path module, for two components. *)
Definition join (a b : string) : string :=
  if startswith_sep b then b
  else if (a =? "")%string || endswith_sep a then a ++ b
  else a ++ "/" ++ b.

End Posixpath.

Module Format.

Fixpoint zfill (missing : nat) (s : string) : string :=
  match missing with
  | O => s
  | S m => String "0" (zfill m s)
  end.

(** ["{:03}".format(n)] for a natural number: decimal digits, padded with
    zeros on the left up to three characters. *)
Definition d03 (n : nat) : string :=
  let digits := NilZero.string_of_uint (Nat.to_uint n) in
  zfill (3 - String.length digits) digits.

End Format.

(** Truth value of [None] or a string. *)
Definition truthy (o : option string) : bool :=
  match o with
  | Some s => negb (s =? "")%string
  | None => false
  end.

(** ** Events *)

(** The key constants of pygame the program compares with. *)
Inductive key : Type :=
| K_ESCAPE | K_f | K_p | K_e | K_LEFT | K_RIGHT
| K_other (code : nat).

Definition key_eqb (a b : key) : bool :=
  match a, b with
  | K_ESCAPE, K_ESCAPE | K_f, K_f | K_p, K_p | K_e, K_e
  | K_LEFT, K_LEFT | K_RIGHT, K_RIGHT => true
  | K_other m, K_other n => Nat.eqb m n
  | _, _ => false
  end.

(** [pygame.KMOD_CTRL] is [KMOD_LCTRL | KMOD_RCTRL]. *)
Definition KMOD_CTRL : Z := Z.lor 64 128.

(** Modelled from the spec: [PtbButton] of [pibooth.controls.button], the
    button input that "produces discrete button-down(pin-id) events". A
    button is known by the number of its pin. *)
Definition PtbButton : Type := Z.

(** An event with the attributes its type gives it: [event.key] for
    [KEYDOWN], [event.size] for [VIDEORESIZE], [event.pin] for
    [BUTTON_DOWN]. *)
Inductive event : Type :=
| QUIT
| KEYDOWN (key : key)
| VIDEORESIZE (size : Z * Z)
| BUTTON_DOWN (pin : PtbButton)
| other_event (type : nat).

(** ** Collaborators *)

Inductive led : Type := led_picture | led_print.

Definition color : Type := (Z * Z * Z)%type.

(** Modelled from the spec: [generate_picture_from_files] of
    [pibooth.pictures.concatenate], the composition service
    [compose(paths, footer_lines, background_color, text_color) -> image].
    The image is kept as the arguments it was composed from. *)
Record Picture : Type := generate_picture_from_files {
  picture_files : list string;
  picture_footer_texts : list string;
  picture_bg_color : color;
  picture_text_color : color
}.

(** The options the states read from the configuration. *)
Record PtbConfigParser : Type := {
  PICTURE_captures : Z;
  PICTURE_footer_text1 : string;
  PICTURE_footer_text2 : string;
  PICTURE_bg_color : color;
  PICTURE_text_color : color;
  WINDOW_preview_countdown : bool;
  WINDOW_preview_delay : Z;
  WINDOW_flash : bool
}.

(** A call to a collaborator, as it appears in the order of execution. *)
Inductive action : Type :=
| window_show_intro (picture : option Picture)
| window_show_choice (number : option Z)
| window_set_picture_number (current : Z) (total : option Z)
| window_show_countdown (delay : Z)
| window_flash (count : Z)
| window_show_wait
| window_show_print (picture : option Picture)
| window_show_finished
| window_toggle_fullscreen
| window_resize (size : Z * Z)
| camera_preview
| camera_stop_preview
| camera_capture (path : string)
| camera_quit
| switch_on (l : led)
| switch_off (l : led)
| blink (l : led)
| printer_print_file (file : option string)
| printer_quit
| os_makedirs (path : string)
| picture_save (picture : Picture) (path : string)
| time_sleep (seconds : Q)
| GPIO_cleanup
| pygame_quit.

(** ** The timer *)

(** Modelled from the spec: [PoolingTimer] of [pibooth.utils], "a monotonic
    countdown checked by polling": [start()] records the current time and
    [is_timeout()] "returns true once a fixed duration has elapsed since the
    last [start()]".  A timer that was never started has no recorded time. *)
Record PoolingTimer : Type := {
  timeout : Q;
  time : option Q
}.

Definition PoolingTimer_init (duration : Q) : PoolingTimer :=
  {| timeout := duration; time := None |}.

Definition PoolingTimer_start (now : Q) (t : PoolingTimer) : PoolingTimer :=
  {| timeout := timeout t; time := Some now |}.

Definition PoolingTimer_is_timeout (now : Q) (t : PoolingTimer) : option bool :=
  match time t with
  | Some started => Some (Qle_bool (timeout t) (now - started))
  | None => None
  end.

(** ** The application *)

(** The six states of the workflow. *)
Inductive State : Type :=
| StateWait | StateChoose | StateCapture
| StateProcessing | StatePrint | StateFinish.

(** The two names given to [State.__init__]. *)
Definition name (s : State) : string :=
  match s with
  | StateWait => "wait"
  | StateChoose => "choose"
  | StateCapture => "capture"
  | StateProcessing => "processing"
  | StatePrint => "print"
  | StateFinish => "finish"
  end.

Definition next_name (s : State) : string :=
  match s with
  | StateWait => "choose"
  | StateChoose => "capture"
  | StateCapture => "processing"
  | StateProcessing => "print"
  | StatePrint => "finish"
  | StateFinish => "wait"
  end.

(** The attributes of [PtbApplication] the workflow uses, with the state
    machine's active state and the attributes of the state objects
    ([StateChoose.timer], [StatePrint.timer], [StatePrint.printed]), which
    are created once and live as long as the application. *)
Record PtbApplication : Type := {
  config : PtbConfigParser;
  savedir : string;
  active_state : option State;
  choose_timer : PoolingTimer;
  print_timer : PoolingTimer;
  printed : bool;
  dirname : option string;
  captures : list string;
  max_captures : option Z;
  previous_picture : option Picture;
  previous_picture_file : option string
}.

(** The pins of the two buttons, [PtbButton(11, ...)] and
    [PtbButton(13, ...)]. *)
Definition button_picture : PtbButton := 11.
Definition button_print : PtbButton := 13.

(** The application as [PtbApplication.__init__] and the constructors of the
    states leave it. *)
Definition PtbApplication_init (cfg : PtbConfigParser) (dir : string)
  : PtbApplication :=
  {| config := cfg;
     savedir := dir;
     active_state := None;
     choose_timer := PoolingTimer_init 8;
     print_timer := PoolingTimer_init 5;
     printed := false;
     dirname := None;
     captures := [];
     max_captures := None;
     previous_picture := None;
     previous_picture_file := None |}.

Definition set_active_state (v : option State) (a : PtbApplication) :=
  {| config := config a; savedir := savedir a; active_state := v;
     choose_timer := choose_timer a; print_timer := print_timer a;
     printed := printed a; dirname := dirname a; captures := captures a;
     max_captures := max_captures a; previous_picture := previous_picture a;
     previous_picture_file := previous_picture_file a |}.

Definition set_choose_timer (v : PoolingTimer) (a : PtbApplication) :=
  {| config := config a; savedir := savedir a; active_state := active_state a;
     choose_timer := v; print_timer := print_timer a;
     printed := printed a; dirname := dirname a; captures := captures a;
     max_captures := max_captures a; previous_picture := previous_picture a;
     previous_picture_file := previous_picture_file a |}.

Definition set_print_timer (v : PoolingTimer) (a : PtbApplication) :=
  {| config := config a; savedir := savedir a; active_state := active_state a;
     choose_timer := choose_timer a; print_timer := v;
     printed := printed a; dirname := dirname a; captures := captures a;
     max_captures := max_captures a; previous_picture := previous_picture a;
     previous_picture_file := previous_picture_file a |}.

Definition set_printed (v : bool) (a : PtbApplication) :=
  {| config := config a; savedir := savedir a; active_state := active_state a;
     choose_timer := choose_timer a; print_timer := print_timer a;
     printed := v; dirname := dirname a; captures := captures a;
     max_captures := max_captures a; previous_picture := previous_picture a;
     previous_picture_file := previous_picture_file a |}.

Definition set_dirname (v : option string) (a : PtbApplication) :=
  {| config := config a; savedir := savedir a; active_state := active_state a;
     choose_timer := choose_timer a; print_timer := print_timer a;
     printed := printed a; dirname := v; captures := captures a;
     max_captures := max_captures a; previous_picture := previous_picture a;
     previous_picture_file := previous_picture_file a |}.

Definition set_captures (v : list string) (a : PtbApplication) :=
  {| config := config a; savedir := savedir a; active_state := active_state a;
     choose_timer := choose_timer a; print_timer := print_timer a;
     printed := printed a; dirname := dirname a; captures := v;
     max_captures := max_captures a; previous_picture := previous_picture a;
     previous_picture_file := previous_picture_file a |}.

Definition set_max_captures (v : option Z) (a : PtbApplication) :=
  {| config := config a; savedir := savedir a; active_state := active_state a;
     choose_timer := choose_timer a; print_timer := print_timer a;
     printed := printed a; dirname := dirname a; captures := captures a;
     max_captures := v; previous_picture := previous_picture a;
     previous_picture_file := previous_picture_file a |}.

Definition set_previous_picture (v : option Picture) (a : PtbApplication) :=
  {| config := config a; savedir := savedir a; active_state := active_state a;
     choose_timer := choose_timer a; print_timer := print_timer a;
     printed := printed a; dirname := dirname a; captures := captures a;
     max_captures := max_captures a; previous_picture := v;
     previous_picture_file := previous_picture_file a |}.

Definition set_previous_picture_file (v : option string) (a : PtbApplication) :=
  {| config := config a; savedir := savedir a; active_state := active_state a;
     choose_timer := choose_timer a; print_timer := print_timer a;
     printed := printed a; dirname := dirname a; captures := captures a;
     max_captures := max_captures a; previous_picture := previous_picture a;
     previous_picture_file := v |}.

(** ** What one iteration of the main loop reads from outside

    The printer, the camera and the file system are collaborators of the
    program: what they answer during an iteration, and whether they fail, is
    given with the iteration. A failing call raises an exception. *)

Record World : Type := {
  event_get : list event;      (* pygame.event.get(), oldest first *)
  get_mods : Z;                (* pygame.key.get_mods() *)
  time_polled : Q;             (* time.time() when a timer is polled *)
  time_started : Q;            (* time.time() when a timer is started *)
  strftime : string;           (* time.strftime("%Y-%m-%d-%H-%M-%S") *)
  is_installed : bool;         (* printer.is_installed() *)
  makedirs_fails : bool;       (* os.makedirs raises *)
  capture_fails : bool;        (* camera.capture raises *)
  print_file_fails : bool      (* printer.print_file raises *)
}.

(** ** Computations: state, log and exceptions *)

(** The exceptions. [TypeError] is what the code of the states raises when a
    shared variable that is still [None] is joined to a path, compared with
    a number or subtracted from the time; [ValueError] is that of
    [time.sleep] for a negative number of seconds; [UnknownState] is that of
    the state machine for a name that is not registered. [OSError],
    [CameraError] and [PrinterError] stand for whatever [os.makedirs],
    [camera.capture] and [printer.print_file] raise on an iteration on which
    they fail; the other calls of the window, the camera, the lights and the
    printer are taken to return. *)
Inductive exn : Type :=
| UnknownState (state_name : string)
| TypeError
| ValueError
| OSError
| CameraError
| PrinterError.

Inductive outcome (A : Type) : Type :=
| Ok (value : A) (app : PtbApplication) (log : list action)
| Raise (e : exn) (app : PtbApplication) (log : list action).
Arguments Ok {A} value app log.
Arguments Raise {A} e app log.

Definition M (A : Type) : Type := PtbApplication -> outcome A.

Definition ret {A} (x : A) : M A := fun a => Ok x a [].

Definition bind {A B} (m : M A) (k : A -> M B) : M B :=
  fun a =>
    match m a with
    | Ok x a1 l1 =>
        match k x a1 with
        | Ok y a2 l2 => Ok y a2 (l1 ++ l2)
        | Raise e a2 l2 => Raise e a2 (l1 ++ l2)
        end
    | Raise e a1 l1 => Raise e a1 l1
    end.

Definition raise {A} (e : exn) : M A := fun a => Raise e a [].
Definition call (x : action) : M unit := fun a => Ok tt a [x].
Definition read {A} (f : PtbApplication -> A) : M A := fun a => Ok (f a) a [].
Definition assign (f : PtbApplication -> PtbApplication) : M unit :=
  fun a => Ok tt (f a) [].
Definition when (b : bool) (m : M unit) : M unit := if b then m else ret tt.

Declare Scope ptb_scope.
Delimit Scope ptb_scope with ptb.
Notation "x <- m ;; k" := (bind m (fun x => k))
  (at level 61, m at next level, right associativity) : ptb_scope.
Notation "m ;; k" := (bind m (fun _ => k))
  (at level 61, right associativity) : ptb_scope.
Local Open Scope ptb_scope.

Definition log_of {A} (o : outcome A) : list action :=
  match o with Ok _ _ l => l | Raise _ _ l => l end.

Definition app_of {A} (o : outcome A) : PtbApplication :=
  match o with Ok _ a _ => a | Raise _ a _ => a end.

Definition raised {A} (o : outcome A) : bool :=
  match o with Ok _ _ _ => false | Raise _ _ _ => true end.

(** ** The event finders of [PtbApplication]

    Each finder returns the first event of the list that satisfies its test,
    or [None]. The keyboard modifiers are those of the current iteration. *)

Definition ctrl_pressed (w : World) : bool :=
  negb (Z.land (get_mods w) KMOD_CTRL =? 0).

Definition is_quit_event (e : event) : bool :=
  match e with
  | QUIT => true
  | KEYDOWN k => key_eqb k K_ESCAPE
  | _ => false
  end.

Definition is_fullscreen_event (w : World) (e : event) : bool :=
  match e with
  | KEYDOWN k => key_eqb k K_f && ctrl_pressed w
  | _ => false
  end.

Definition is_picture_event (e : event) : bool :=
  match e with
  | KEYDOWN k => key_eqb k K_p
  | BUTTON_DOWN pin => pin =? button_picture
  | _ => false
  end.

Definition is_print_event (w : World) (e : event) : bool :=
  match e with
  | KEYDOWN k => key_eqb k K_e && ctrl_pressed w
  | BUTTON_DOWN pin => pin =? button_print
  | _ => false
  end.

Definition is_resize_event (e : event) : bool :=
  match e with
  | VIDEORESIZE _ => true
  | _ => false
  end.

Definition is_choice_event (e : event) : bool :=
  match e with
  | KEYDOWN k => key_eqb k K_LEFT || key_eqb k K_RIGHT
  | BUTTON_DOWN pin => pin =? button_picture
  | _ => false
  end.

Definition find_quit_event (events : list event) : option event :=
  find is_quit_event events.

Definition find_fullscreen_event (w : World) (events : list event) : option event :=
  find (is_fullscreen_event w) events.

Definition find_picture_event (events : list event) : option event :=
  find is_picture_event events.

Definition find_print_event (w : World) (events : list event) : option event :=
  find (is_print_event w) events.

Definition find_resize_event (events : list event) : option event :=
  find is_resize_event events.

Definition find_choice_event (events : list event) : option event :=
  find is_choice_event events.

(** Truth value of what a finder returns: an event found is true. *)
Definition found (o : option event) : bool :=
  match o with Some _ => true | None => false end.

(** ** The hooks of the six states *)

Definition neq_int (m : option Z) (n : Z) : bool :=
  match m with
  | Some v => negb (v =? n)
  | None => true
  end.

(** [printer.print_file(file)], which raises when the printer fails. *)
Definition print_file (w : World) (file : option string) : M unit :=
  if print_file_fails w then raise PrinterError
  else call (printer_print_file file).

(** The block "Send final picture to printer" of the wait and the print
    states. *)
Definition send_to_printer (w : World) (file : option string) : M unit :=
  call (blink led_print) ;;
  print_file w file ;;
  call (time_sleep (1 # 2)) ;;
  call (switch_on led_print).

(** [time.sleep(seconds)] for a number of seconds read from the
    configuration with [getint]: a negative number raises [ValueError]. *)
Definition sleep (seconds : Z) : M unit :=
  if seconds <? 0 then raise ValueError
  else call (time_sleep (inject_Z seconds)).

(** *** [StateWait] *)

Definition StateWait_entry_actions : M unit :=
  picture <- read previous_picture ;;
  call (window_show_intro picture).

Definition StateWait_do_actions (w : World) (events : list event) : M unit :=
  file <- read previous_picture_file ;;
  when (found (find_print_event w events) && truthy file && is_installed w)
       (send_to_printer w file).

Definition StateWait_exit_actions : M unit :=
  call (switch_off led_print).

Definition StateWait_validate_transition (events : list event)
  : M (option string) :=
  if found (find_picture_event events) then ret (Some (next_name StateWait))
  else ret None.

(** *** [StateChoose] *)

Definition StateChoose_entry_actions (w : World) : M unit :=
  call (switch_on led_picture) ;;
  cfg <- read config ;;
  assign (set_max_captures (Some (PICTURE_captures cfg))) ;;
  number <- read max_captures ;;
  call (window_show_choice number) ;;
  timer <- read choose_timer ;;
  assign (set_choose_timer (PoolingTimer_start (time_started w) timer)).

Definition StateChoose_do_actions (events : list event) : M unit :=
  let event := find_choice_event events in
  current <- read max_captures ;;
  (if found event && neq_int current 1 then
     assign (set_max_captures (Some 1))
   else if found event && neq_int current 4 then
     assign (set_max_captures (Some 4))
   else ret tt) ;;
  number <- read max_captures ;;
  call (window_show_choice number).

Definition StateChoose_validate_transition (w : World) : M (option string) :=
  timer <- read choose_timer ;;
  match PoolingTimer_is_timeout (time_polled w) timer with
  | Some true => ret (Some (next_name StateChoose))
  | Some false => ret None
  | None => raise TypeError
  end.

(** *** [StateCapture] *)

Definition StateCapture_entry_actions (w : World) : M unit :=
  assign (set_previous_picture None) ;;
  assign (set_previous_picture_file None) ;;
  root <- read savedir ;;
  assign (set_dirname (Some (Posixpath.join root (strftime w)))) ;;
  (if makedirs_fails w then raise OSError
   else call (os_makedirs (Posixpath.join root (strftime w)))) ;;
  call camera_preview.

Definition StateCapture_do_actions (w : World) : M unit :=
  call (blink led_picture) ;;
  taken <- read captures ;;
  total <- read max_captures ;;
  call (window_set_picture_number (Z.of_nat (List.length taken) + 1) total) ;;
  cfg <- read config ;;
  (if WINDOW_preview_countdown cfg
   then call (window_show_countdown (WINDOW_preview_delay cfg))
   else sleep (WINDOW_preview_delay cfg)) ;;
  call (switch_on led_picture) ;;
  when (WINDOW_flash cfg) (call (window_flash 2)) ;;
  dir <- read dirname ;;
  match dir with
  | None => raise TypeError
  | Some d =>
      let image_file_name :=
        Posixpath.join d ("ptb" ++ Format.d03 (List.length taken) ++ ".jpg") in
      (if capture_fails w then raise CameraError
       else call (camera_capture image_file_name)) ;;
      assign (fun a => set_captures (captures a ++ [image_file_name]) a)
  end.

Definition StateCapture_exit_actions : M unit :=
  call camera_stop_preview ;;
  call (switch_off led_picture).

Definition StateCapture_validate_transition : M (option string) :=
  taken <- read captures ;;
  total <- read max_captures ;;
  match total with
  | None => raise TypeError
  | Some n =>
      if n <=? Z.of_nat (List.length taken)
      then ret (Some (next_name StateCapture))
      else ret None
  end.

(** *** [StateProcessing] *)

Definition StateProcessing_entry_actions (w : World) : M unit :=
  call window_show_wait ;;
  cfg <- read config ;;
  taken <- read captures ;;
  let picture :=
    generate_picture_from_files taken
      [PICTURE_footer_text1 cfg; PICTURE_footer_text2 cfg]
      (PICTURE_bg_color cfg) (PICTURE_text_color cfg) in
  assign (set_previous_picture (Some picture)) ;;
  dir <- read dirname ;;
  match dir with
  | None => raise TypeError
  | Some d =>
      let file := Posixpath.join d (strftime w ++ "_ptb.jpg") in
      assign (set_previous_picture_file (Some file)) ;;
      call (picture_save picture file)
  end.

Definition StateProcessing_exit_actions : M unit :=
  assign (set_captures []).

Definition StateProcessing_validate_transition (w : World) : M (option string) :=
  if is_installed w then ret (Some (next_name StateProcessing))
  else ret (Some "finish").

(** *** [StatePrint] *)

Definition StatePrint_entry_actions (w : World) : M unit :=
  picture <- read previous_picture ;;
  call (window_show_print picture) ;;
  call (switch_on led_print) ;;
  timer <- read print_timer ;;
  assign (set_print_timer (PoolingTimer_start (time_started w) timer)).

Definition StatePrint_do_actions (w : World) (events : list event) : M unit :=
  file <- read previous_picture_file ;;
  when (found (find_print_event w events) && truthy file)
       (send_to_printer w file ;;
        assign (set_printed true)).

Definition StatePrint_validate_transition (w : World) : M (option string) :=
  timer <- read print_timer ;;
  flag <- read printed ;;
  match PoolingTimer_is_timeout (time_polled w) timer with
  | Some expired =>
      if expired || flag then ret (Some (next_name StatePrint)) else ret None
  | None => raise TypeError
  end.

(** *** [StateFinish] *)

Definition StateFinish_entry_actions : M unit :=
  call window_show_finished ;;
  call (time_sleep (1 # 2)).

(** *** The hooks by state *)

(** Modelled from the spec: the hooks of the base class [State] of
    [pibooth.states], for the states that do not define them. The per-tick
    action and the exit hook do nothing (each of the six states defines its
    entry hook). *)
Definition State_do_actions : M unit := ret tt.
Definition State_exit_actions : M unit := ret tt.

(** Modelled from the spec: the transition check of the base class [State]:
    "a State with no custom transition check is defined to transition
    unconditionally to its default successor every tick it is active". *)
Definition State_validate_transition (s : State) : M (option string) :=
  ret (Some (next_name s)).

Definition entry_actions (s : State) (w : World) : M unit :=
  match s with
  | StateWait => StateWait_entry_actions
  | StateChoose => StateChoose_entry_actions w
  | StateCapture => StateCapture_entry_actions w
  | StateProcessing => StateProcessing_entry_actions w
  | StatePrint => StatePrint_entry_actions w
  | StateFinish => StateFinish_entry_actions
  end.

Definition do_actions (s : State) (w : World) (events : list event) : M unit :=
  match s with
  | StateWait => StateWait_do_actions w events
  | StateChoose => StateChoose_do_actions events
  | StateCapture => StateCapture_do_actions w
  | StatePrint => StatePrint_do_actions w events
  | StateProcessing | StateFinish => State_do_actions
  end.

Definition exit_actions (s : State) : M unit :=
  match s with
  | StateWait => StateWait_exit_actions
  | StateCapture => StateCapture_exit_actions
  | StateProcessing => StateProcessing_exit_actions
  | StateChoose | StatePrint | StateFinish => State_exit_actions
  end.

Definition validate_transition (s : State) (w : World) (events : list event)
  : M (option string) :=
  match s with
  | StateWait => StateWait_validate_transition events
  | StateChoose => StateChoose_validate_transition w
  | StateCapture => StateCapture_validate_transition
  | StateProcessing => StateProcessing_validate_transition w
  | StatePrint => StatePrint_validate_transition w
  | StateFinish => State_validate_transition StateFinish
  end.

(** ** The state machine *)

(** The states registered by [PtbApplication.__init__], by name. *)
Definition states (state_name : string) : option State :=
  find (fun s => (name s =? state_name)%string)
       [StateWait; StateChoose; StateCapture;
        StateProcessing; StatePrint; StateFinish].

(** Modelled from the spec: [StateMachine.set_state] of [pibooth.states],
    used for the initial state and for every transition: "run active-state
    exit hook, update active name, run new-state entry hook"; a name that is
    not registered "fails with [UnknownState]". At startup there is no
    active state and no exit hook runs. *)
Definition set_state (w : World) (state_name : string) : M unit :=
  active <- read active_state ;;
  match active with
  | Some old => exit_actions old
  | None => ret tt
  end ;;
  match states state_name with
  | None => raise (UnknownState state_name)
  | Some new =>
      assign (set_active_state (Some new)) ;;
      entry_actions new w
  end.

(** Modelled from the spec: [StateMachine.process] of [pibooth.states]:
    "invokes active-state per-tick action with [events]; then invokes
    active-state transition check. If it returns a name: run active-state exit
    hook, update active name, run new-state entry hook." *)
Definition process (w : World) (events : list event) : M unit :=
  active <- read active_state ;;
  match active with
  | None => ret tt
  | Some s =>
      do_actions s w events ;;
      new_state_name <- validate_transition s w events ;;
      match new_state_name with
      | Some state_name => set_state w state_name
      | None => ret tt
      end
  end.

(** ** The main loop *)

(** The [finally] block of [main_loop]. *)
Definition cleanup : M unit :=
  call (switch_off led_picture) ;;
  call (switch_off led_print) ;;
  call GPIO_cleanup ;;
  call camera_quit ;;
  call printer_quit ;;
  call pygame_quit.

(** How a run of the loop over finitely many iterations ends: the loop was
    left by [break], or it is still running when the iterations given are
    used up. *)
Inductive loop_status : Type := left_by_break | still_running.

(** One iteration of [while True]: [None] when the iteration ends the loop
    with [break]. *)
Definition iteration (w : World) : M (option unit) :=
  let events := rev (event_get w) in
  if found (find_quit_event events) then ret None
  else
    when (found (find_fullscreen_event w events)) (call window_toggle_fullscreen) ;;
    match find_resize_event events with
    | Some (VIDEORESIZE size) => call (window_resize size)
    | _ => ret tt
    end ;;
    process w events ;;
    ret (Some tt).

Fixpoint while_true (ws : list World) : M loop_status :=
  match ws with
  | [] => ret still_running
  | w :: rest =>
      continue <- iteration w ;;
      match continue with
      | None => ret left_by_break
      | Some _ => while_true rest
      end
  end.

(** The [try] block: the initial state, then the loop. *)
Definition try_block (boot : World) (ws : list World) : M loop_status :=
  set_state boot "wait" ;;
  while_true ws.

(** [main_loop]: when the [try] block is left, by [break] or by an
    exception, the [finally] block runs, and the exception goes on. While the
    loop is running the [finally] block has not been reached. *)
Definition main_loop (boot : World) (ws : list World) : M loop_status :=
  fun a =>
    match try_block boot ws a with
    | Ok still_running a1 l1 => Ok still_running a1 l1
    | Ok left_by_break a1 l1 =>
        match cleanup a1 with
        | Ok _ a2 l2 => Ok left_by_break a2 (l1 ++ l2)
        | Raise e a2 l2 => Raise e a2 (l1 ++ l2)
        end
    | Raise e a1 l1 =>
        match cleanup a1 with
        | Ok _ a2 l2 => Raise e a2 (l1 ++ l2)
        | Raise e' a2 l2 => Raise e' a2 (l1 ++ l2)
        end
    end.

(** Several iterations of the state machine alone, each with the events of
    its world, most recent first, as the main loop passes them. *)
Fixpoint run (ws : list World) : M unit :=
  match ws with
  | [] => ret tt
  | w :: rest => process w (rev (event_get w)) ;; run rest
  end.

(** ** Reachable applications *)

(** The applications the workflow can be in between two calls of the state
    machine: the one that [set_state('wait')] gives at startup, and those
    that [process] gives from a reachable one, whatever the events and the
    surroundings are. *)
Inductive reachable (cfg : PtbConfigParser) (dir : string)
  : PtbApplication -> Prop :=
| reachable_start : forall boot a l,
    set_state boot "wait" (PtbApplication_init cfg dir) = Ok tt a l ->
    reachable cfg dir a
| reachable_process : forall a w events a' l,
    reachable cfg dir a ->
    process w events a = Ok tt a' l ->
    reachable cfg dir a'.

(** [len(captures) <= max_captures]. *)
Definition captures_bounded (a : PtbApplication) : Prop :=
  match max_captures a with
  | Some n => Z.of_nat (List.length (captures a)) <= n
  | None => False
  end.

(** What holds of every reachable application, by active state. *)
Definition well_formed (a : PtbApplication) : Prop :=
  timeout (choose_timer a) = 8%Q /\
  timeout (print_timer a) = 5%Q /\
  match active_state a with
  | None => False
  | Some StateWait | Some StateFinish => captures a = []
  | Some StateChoose =>
      captures a = [] /\ max_captures a <> None /\
      time (choose_timer a) <> None
  | Some StateCapture =>
      dirname a <> None /\ max_captures a <> None
  | Some StateProcessing =>
      dirname a <> None /\ max_captures a <> None /\
      truthy (previous_picture_file a) = true
  | Some StatePrint =>
      captures a = [] /\ truthy (previous_picture_file a) = true /\
      time (print_timer a) <> None
  end.

(** What holds in addition when the configured number of captures is at
    least one. *)
Definition captures_in_step (a : PtbApplication) : Prop :=
  match max_captures a with
  | None => True
  | Some n =>
      1 <= n /\
      match active_state a with
      | Some StateCapture => Z.of_nat (List.length (captures a)) < n
      | Some StateProcessing => Z.of_nat (List.length (captures a)) = n
      | _ => captures a = []
      end
  end.


(** ** Sample surroundings

    A configuration with a given number of captures, and an iteration of the
    main loop on which no hardware fails and no modifier key is held. *)

Definition sample_config (number : Z) : PtbConfigParser :=
  {| PICTURE_captures := number;
     PICTURE_footer_text1 := "Footer 1";
     PICTURE_footer_text2 := "Footer 2";
     PICTURE_bg_color := (255, 255, 255);
     PICTURE_text_color := (0, 0, 0);
     WINDOW_preview_countdown := true;
     WINDOW_preview_delay := 3;
     WINDOW_flash := true |}.

Definition world (pending : list event) (now : Q) (stamp : string)
  (installed : bool) : World :=
  {| event_get := pending;
     get_mods := 0;
     time_polled := now;
     time_started := now;
     strftime := stamp;
     is_installed := installed;
     makedirs_fails := false;
     capture_fails := false;
     print_file_fails := false |}.

(** The application after [set_state('wait')] at startup. *)
Definition started (cfg : PtbConfigParser) (dir : string) : PtbApplication :=
  app_of (set_state (world [] 0 "" false) "wait" (PtbApplication_init cfg dir)).

(** With no capture configured: a picture request, the end of the choose
    state ten seconds later, and the tick of the capture state. *)
Definition no_capture_configured : list World :=
  [ world [BUTTON_DOWN button_picture] 1 "2018-03-01-10-00-01" false;
    world [] 11 "2018-03-01-10-00-11" false;
    world [] 15 "2018-03-01-10-00-15" false ].

(** The log of the [finally] block of [main_loop]. *)
Definition cleanup_log : list action :=
  [switch_off led_picture; switch_off led_print;
   GPIO_cleanup; camera_quit; printer_quit; pygame_quit].

(** The calls that only the [finally] block makes: the release of the pins,
    of the camera, of the printer and of pygame. *)
Definition is_release (x : action) : bool :=
  match x with
  | GPIO_cleanup | camera_quit | printer_quit | pygame_quit => true
  | _ => false
  end.


(** With one capture configured and a printer installed: a first cycle in
    which the print button is pressed in the print state, then a second
    cycle up to the entry of the print state, at second 46. *)
Definition printed_in_first_cycle : list World :=
  [ world [BUTTON_DOWN button_picture] 1 "2018-03-01-10-00-01" true;
    world [] 10 "2018-03-01-10-00-10" true;
    world [] 15 "2018-03-01-10-00-15" true;
    world [] 16 "2018-03-01-10-00-16" true;
    world [BUTTON_DOWN button_print] 17 "2018-03-01-10-00-17" true;
    world [] 18 "2018-03-01-10-00-18" true;
    world [BUTTON_DOWN button_picture] 30 "2018-03-01-10-00-30" true;
    world [] 40 "2018-03-01-10-00-40" true;
    world [] 45 "2018-03-01-10-00-45" true;
    world [] 46 "2018-03-01-10-00-46" true ].

(** One second after that entry, without any event. *)
Definition one_second_later : World :=
  world [] 47 "2018-03-01-10-00-47" true.




(** Two cycles of one capture, without printer. *)
Definition first_cycle : list World :=
  [ world [BUTTON_DOWN button_picture] 1 "2018-03-01-10-00-01" false;
    world [] 10 "2018-03-01-10-00-10" false;
    world [] 15 "2018-03-01-10-00-15" false;
    world [] 16 "2018-03-01-10-00-16" false;
    world [] 17 "2018-03-01-10-00-17" false ].

Definition second_cycle : list World :=
  [ world [KEYDOWN K_p] 60 "2018-03-01-10-01-00" false;
    world [] 69 "2018-03-01-10-01-09" false;
    world [] 74 "2018-03-01-10-01-14" false;
    world [] 75 "2018-03-01-10-01-15" false;
    world [] 76 "2018-03-01-10-01-16" false ].

(** An iteration on which the directory of the cycle cannot be created. *)
Definition disk_full (now : Q) : World :=
  {| event_get := [];
     get_mods := 0;
     time_polled := now;
     time_started := now;
     strftime := "2018-03-01-10-00-10";
     is_installed := false;
     makedirs_fails := true;
     capture_fails := false;
     print_file_fails := false |}.

(** The application in the capture state, four captures asked, none taken;
    and in the processing state, one capture asked and taken. *)
Definition in_capture : PtbApplication :=
  app_of (run (firstn 2 first_cycle)
            (started (sample_config 4) "/home/pi/Pictures")).

Definition in_processing : PtbApplication :=
  app_of (run (firstn 3 first_cycle)
            (started (sample_config 1) "/home/pi/Pictures")).

(** ** The order of the workflow *)

(** The transitions between the six states: wait, choose, capture,
    processing, then print or directly finish, and back to wait. *)
Definition follows (s s' : State) : bool :=
  match s, s' with
  | StateWait, StateChoose
  | StateChoose, StateCapture
  | StateCapture, StateProcessing
  | StateProcessing, StatePrint
  | StateProcessing, StateFinish
  | StatePrint, StateFinish
  | StateFinish, StateWait => true
  | _, _ => false
  end.

(** ** What is sent to the printer *)

(** The files given to [printer.print_file], in order. *)
Definition files_printed (l : list action) : list (option string) :=
  flat_map (fun x => match x with printer_print_file f => [f] | _ => [] end) l.

(** The test of the wait state and of the print state before they print:
    a print request, a merged picture saved in a file and, in the wait state,
    a printer installed. No other state prints. *)
Definition print_asked (w : World) (events : list event) (a : PtbApplication)
  : bool :=
  match active_state a with
  | Some StateWait =>
      found (find_print_event w events) && truthy (previous_picture_file a)
      && is_installed w
  | Some StatePrint =>
      found (find_print_event w events) && truthy (previous_picture_file a)
  | _ => false
  end.

(** The calls that concern the printer and its light, apart from switching
    the light off. *)
Definition print_related (x : action) : bool :=
  match x with
  | switch_on led_print | blink led_print
  | printer_print_file _ | window_show_print _ => true
  | _ => false
  end.

(** ** The use of the camera *)

(** The calls to the camera in a log, checked in order from a camera that
    is previewing or not: the preview is started only when it is not running,
    stopped only when it is running, and a picture is taken only while it is
    running. The result is [None] when a call breaks this, and otherwise
    tells whether the preview is running at the end. *)
Fixpoint camera_protocol (previewing : bool) (l : list action) : option bool :=
  match l with
  | [] => Some previewing
  | camera_preview :: rest =>
      if previewing then None else camera_protocol true rest
  | camera_stop_preview :: rest =>
      if previewing then camera_protocol false rest else None
  | camera_capture _ :: rest =>
      if previewing then camera_protocol true rest else None
  | _ :: rest => camera_protocol previewing rest
  end.

Definition capturing (a : PtbApplication) : bool :=
  match active_state a with
  | Some StateCapture => true
  | _ => false
  end.

(** ** The files of a cycle *)

(** The file of the capture number [i] (from 0) in the directory [d], as
    the capture state names it. *)
Definition capture_name (d : string) (i : nat) : string :=
  Posixpath.join d ("ptb" ++ Format.d03 i ++ ".jpg").

(** The files of [count] captures from number [first] on. *)
Definition capture_names (d : string) (first count : nat) : list string :=
  map (capture_name d) (seq first count).

(** The merged picture and its file are those that the processing state
    makes in the directory [dirname] from [files], themselves the captures
    number 0, 1, ... of that directory. *)
Definition merged_from (a : PtbApplication) (files : list string) : Prop :=
  exists d stamp,
    dirname a = Some d /\
    files = capture_names d 0 (List.length files) /\
    previous_picture a =
      Some (generate_picture_from_files files
              [PICTURE_footer_text1 (config a); PICTURE_footer_text2 (config a)]
              (PICTURE_bg_color (config a)) (PICTURE_text_color (config a))) /\
    previous_picture_file a = Some (Posixpath.join d (stamp ++ "_ptb.jpg")).

(** What holds of the captures and of the merged picture, by active state. *)
Definition picture_in_step (a : PtbApplication) : Prop :=
  match active_state a with
  | Some StateCapture =>
      previous_picture a = None /\ previous_picture_file a = None /\
      exists d, dirname a = Some d /\
                captures a = capture_names d 0 (List.length (captures a))
  | Some StateProcessing => merged_from a (captures a)
  | Some StatePrint | Some StateFinish => exists files, merged_from a files
  | _ =>
      (previous_picture a = None /\ previous_picture_file a = None) \/
      exists files, merged_from a files
  end.

(** ** The finders and their tests *)

(** The six finders of [PtbApplication], each with the test that it makes
    on an event. *)
Definition finders (w : World)
  : list ((event -> bool) * (list event -> option event)) :=
  [ (is_quit_event, find_quit_event);
    (is_fullscreen_event w, find_fullscreen_event w);
    (is_picture_event, find_picture_event);
    (is_print_event w, find_print_event w);
    (is_resize_event, find_resize_event);
    (is_choice_event, find_choice_event) ].

(** The size of the most recent resize event among the pending events
    (oldest first), if there is one. *)
Definition last_size (pending : list event) : option (Z * Z) :=
  fold_left (fun size e => match e with
                           | VIDEORESIZE s => Some s
                           | _ => size
                           end) pending None.

(** What an iteration of the main loop does to the window before it calls
    the state machine. *)
Definition window_actions (w : World) : list action :=
  ((if found (find_fullscreen_event w (rev (event_get w)))
    then [window_toggle_fullscreen] else []) ++
   match last_size (event_get w) with
   | Some size => [window_resize size]
   | None => []
   end)%list.


(** ** The picture light *)

(** The picture light after the calls of a log, from what it was before:
    [Some true] when the last call on it switched it on or made it blink,
    [Some false] when it switched it off. *)
Fixpoint picture_light (lit : option bool) (l : list action) : option bool :=
  match l with
  | [] => lit
  | x :: rest =>
      picture_light
        match x with
        | switch_on led_picture | blink led_picture => Some true
        | switch_off led_picture => Some false
        | _ => lit
        end rest
  end.

(** The states in which pictures are being prepared or taken. *)
Definition taking_pictures (a : PtbApplication) : bool :=
  match active_state a with
  | Some StateChoose | Some StateCapture => true
  | _ => false
  end.

(** ** More sample surroundings *)

(** An iteration on which the camera fails. *)
Definition camera_broken (now : Q) : World :=
  {| event_get := [];
     get_mods := 0;
     time_polled := now;
     time_started := now;
     strftime := "2018-03-01-10-00-15";
     is_installed := false;
     makedirs_fails := false;
     capture_fails := true;
     print_file_fails := false |}.

(** The application in the choose state, entered at second 1; back in the
    wait state after a cycle; and in the print state, entered at second 16,
    nothing printed yet. *)
Definition in_choose : PtbApplication :=
  app_of (run (firstn 1 first_cycle)
            (started (sample_config 1) "/home/pi/Pictures")).

Definition after_cycle : PtbApplication :=
  app_of (run first_cycle (started (sample_config 1) "/home/pi/Pictures")).

Definition in_print : PtbApplication :=
  app_of (run (firstn 4 printed_in_first_cycle)
            (started (sample_config 1) "/home/pi/Pictures")).

(** In the wait state: a print request, nothing, a print request with the
    keyboard. *)
Definition print_requests : list World :=
  [ world [BUTTON_DOWN button_print] 20 "2018-03-01-10-00-20" true;
    world [] 21 "2018-03-01-10-00-21" true;
    {| event_get := [KEYDOWN K_e];
       get_mods := 64;
       time_polled := 22;
       time_started := 22;
       strftime := "2018-03-01-10-00-22";
       is_installed := true;
       makedirs_fails := false;
       capture_fails := false;
       print_file_fails := false |} ].

(** Four iterations of the capture state. *)
Definition four_captures : list World :=
  [ world [] 15 "2018-03-01-10-00-15" false;
    world [] 20 "2018-03-01-10-00-20" false;
    world [] 25 "2018-03-01-10-00-25" false;
    world [] 30 "2018-03-01-10-00-30" false ].

(** The window resized twice and Control-F pressed. *)
Definition resized_twice : World :=
  {| event_get := [VIDEORESIZE (640, 480); KEYDOWN K_f; VIDEORESIZE (800, 480)];
     get_mods := 128;
     time_polled := 2;
     time_started := 2;
     strftime := "2018-03-01-10-00-02";
     is_installed := false;
     makedirs_fails := false;
     capture_fails := false;
     print_file_fails := false |}.

(** ** The pause before a picture and the numbers of the files *)






(** The processing state with the four captures taken. *)
Definition four_captures_taken : PtbApplication :=
  app_of (run four_captures in_capture).

(** The processing state with the one capture asked taken, after the three
    iterations of [no_capture_configured]. *)
Definition one_capture_asked : PtbApplication :=
  app_of (run no_capture_configured
            (started (sample_config 1) "/home/pi/Pictures")).

(** * Properties *)

Create HintDb ptb.
#[local] Hint Unfold
  bind ret call read assign when raise
  process set_state entry_actions do_actions exit_actions validate_transition
  StateWait_entry_actions StateWait_do_actions StateWait_exit_actions
  StateWait_validate_transition
  StateChoose_entry_actions StateChoose_do_actions
  StateChoose_validate_transition
  StateCapture_entry_actions StateCapture_do_actions StateCapture_exit_actions
  StateCapture_validate_transition
  StateProcessing_entry_actions StateProcessing_exit_actions
  StateProcessing_validate_transition
  StatePrint_entry_actions StatePrint_do_actions StatePrint_validate_transition
  StateFinish_entry_actions send_to_printer print_file sleep
  State_do_actions State_exit_actions
  State_validate_transition
  PoolingTimer_is_timeout cleanup states : ptb.

Arguments Posixpath.join : simpl never.
Arguments Format.d03 : simpl never.
Arguments Qle_bool : simpl never.
Arguments String.append : simpl never.

(** Unfold the computation and reduce it. *)
Ltac exec := autounfold with ptb in *; simpl in *.

(** ** The Python helpers *)

Lemma append_empty (a b : string) : (a ++ b)%string = "" -> b = "".
Proof.
  destruct a; [ now unfold String.append | ].
  unfold String.append; fold String.append. discriminate.
Qed.

Lemma join_truthy (a b : string) :
  b <> "" -> truthy (Some (Posixpath.join a b)) = true.
Proof.
  intros Hb. unfold truthy, Posixpath.join.
  destruct (Posixpath.startswith_sep b).
  - destruct b; [ congruence | reflexivity ].
  - destruct ((a =? "")%string || Posixpath.endswith_sep a).
    + destruct (String.eqb_spec (a ++ b) ""); [ | reflexivity ].
      apply append_empty in e. congruence.
    + destruct (String.eqb_spec (a ++ "/" ++ b) ""); [ | reflexivity ].
      apply append_empty in e. apply append_empty in e. congruence.
Qed.

Lemma merged_name_not_empty (stamp : string) : (stamp ++ "_ptb.jpg")%string <> "".
Proof.
  intros H. apply append_empty in H. discriminate.
Qed.

Lemma uint_of_zfill k s :
  NilEmpty.uint_of_string (Format.zfill k s) =
  option_map (Nat.iter k Decimal.D0) (NilEmpty.uint_of_string s).
Proof.
  induction k as [|k IH]; simpl.
  - destruct (NilEmpty.uint_of_string s); reflexivity.
  - rewrite IH. destruct (NilEmpty.uint_of_string s); reflexivity.
Qed.

Lemma to_uint_not_nil n : Nat.to_uint n <> Decimal.Nil.
Proof.
  rewrite <- (DecimalNat.Unsigned.of_to n) at 1.
  rewrite DecimalNat.Unsigned.to_of. apply DecimalFacts.unorm_nonnil.
Qed.

(** The three digits or more of [d03] read back as the number. *)
Lemma d03_reads_back n :
  option_map Nat.of_uint (NilEmpty.uint_of_string (Format.d03 n)) = Some n.
Proof.
  unfold Format.d03. rewrite uint_of_zfill.
  assert (Hs : NilZero.string_of_uint (Nat.to_uint n) =
               NilEmpty.string_of_uint (Nat.to_uint n)).
  { unfold NilZero.string_of_uint.
    destruct (Nat.to_uint n) eqn:E; try reflexivity.
    exfalso. exact (to_uint_not_nil n E). }
  rewrite Hs, NilEmpty.usu. simpl. f_equal.
  rewrite <- DecimalNat.Unsigned.of_uint_norm, DecimalFacts.unorm_iter_D0,
    DecimalNat.Unsigned.of_uint_norm.
  apply DecimalNat.Unsigned.of_to.
Qed.

Lemma d03_injective m n : Format.d03 m = Format.d03 n -> m = n.
Proof.
  intros H. pose proof (d03_reads_back m) as Hm.
  rewrite H, d03_reads_back in Hm. congruence.
Qed.




(** A finder finds an event as soon as the list contains one that passes
    its test. *)
Lemma found_find (test : event -> bool) (events : list event) (e : event) :
  In e events -> test e = true -> found (find test events) = true.
Proof.
  intros Hin Htest. destruct (find test events) eqn:Hnone; [ reflexivity | ].
  rewrite (find_none _ _ Hnone e Hin) in Htest. discriminate.
Qed.

(** ** Invariants of the workflow *)

(** Case analysis on the tests in a hypothesis that runs a computation; a
    test whose value is known is rewritten. *)
Ltac split_hyp H :=
  repeat (simpl in H;
    match type of H with
    | context [match ?x with _ => _ end] =>
        first
          [ match goal with E : x = _ |- _ => rewrite E in H end
          | match type of x with
            | bool => destruct x eqn:?
            | option _ => destruct x eqn:?
            end ];
        simpl in H; try discriminate H
    end).

Ltac finish H := inversion H; subst; clear H; simpl.

Ltac known_file :=
  match goal with
  | E : previous_picture_file _ = _ |- _ => rewrite E
  end.

Lemma process_well_formed w events a a' l :
  well_formed a -> process w events a = Ok tt a' l -> well_formed a'.
Proof.
  unfold well_formed. intros (Hc & Hp & Hs) H.
  destruct (active_state a) as [s|] eqn:Hact; [ | contradiction ].
  destruct s; exec; split_hyp H; finish H.
  all: rewrite ?Hc, ?Hp, ?Hact; repeat split; try tauto; try congruence.
  all: try (apply join_truthy, merged_name_not_empty).
  all: try (rewrite orb_true_r in *; discriminate).
  all: known_file; tauto.
Qed.

Lemma start_well_formed boot cfg dir a l :
  set_state boot "wait" (PtbApplication_init cfg dir) = Ok tt a l ->
  well_formed a.
Proof.
  intros H. exec. finish H. unfold well_formed. simpl. auto.
Qed.

Lemma reachable_well_formed cfg dir a :
  reachable cfg dir a -> well_formed a.
Proof.
  induction 1 as [boot a l H | a w events a' l _ IH H].
  - exact (start_well_formed _ _ _ _ _ H).
  - exact (process_well_formed _ _ _ _ _ IH H).
Qed.

(** The configuration and the directory of the pictures never change. *)
Lemma process_config w events a a' l :
  process w events a = Ok tt a' l ->
  config a' = config a /\ savedir a' = savedir a.
Proof.
  intros H.
  destruct (active_state a) as [s|] eqn:Hact.
  - destruct s; exec; split_hyp H; finish H; auto.
  - exec. split_hyp H. finish H. auto.
Qed.

Lemma reachable_config cfg dir a :
  reachable cfg dir a -> config a = cfg /\ savedir a = dir.
Proof.
  induction 1 as [boot a l H | a w events a' l _ IH H].
  - exec. finish H. auto.
  - destruct (process_config _ _ _ _ _ H) as [-> ->]. exact IH.
Qed.

Ltac count_close :=
  repeat match goal with
  | H : _ /\ _ |- _ => destruct H
  | H : (_ <=? _) = true |- _ => apply Z.leb_le in H
  | H : (_ <=? _) = false |- _ => apply Z.leb_gt in H
  end;
  try match goal with
  | E : captures _ = [] |- _ => rewrite E
  end;
  rewrite ?length_app in *; simpl in *;
  try congruence; try tauto; try lia; try (split; [ lia | ]; try lia; auto).

Lemma process_captures_in_step w events a a' l :
  1 <= PICTURE_captures (config a) ->
  well_formed a -> captures_in_step a ->
  process w events a = Ok tt a' l -> captures_in_step a'.
Proof.
  unfold well_formed, captures_in_step. intros Hcfg (_ & _ & Hs) Hn H.
  destruct (active_state a) as [s|] eqn:Hact; [ | contradiction ].
  destruct (max_captures a) as [n|] eqn:Hmax.
  - destruct s; exec; split_hyp H; finish H.
    all: rewrite ?Hact, ?Hmax; simpl; count_close.
  - destruct s; exec; split_hyp H; finish H.
    all: rewrite ?Hact, ?Hmax; simpl; count_close.
Qed.

Lemma reachable_captures_in_step cfg dir a :
  1 <= PICTURE_captures cfg ->
  reachable cfg dir a -> captures_in_step a.
Proof.
  intros Hcfg. induction 1 as [boot a l H | a w events a' l Hr IH H].
  - exec. finish H. unfold captures_in_step. simpl. exact I.
  - apply (process_captures_in_step w events a a' l); auto.
    + destruct (reachable_config _ _ _ Hr) as [-> _]. exact Hcfg.
    + exact (reachable_well_formed _ _ _ Hr).
Qed.

(** ** The choose state: the number of captures *)

(** C2. On a tick of the choose state whose events contain a choice-change
    event, the per-tick action turns a requested number of captures of 1 into
    4 and of 4 into 1; and on every tick, with or without such an event, it
    shows the number of captures it leaves, and nothing else. *)
Theorem choose_do_actions_toggles (events : list event) (a : PtbApplication) :
  (forall e, In e events -> is_choice_event e = true ->
   (max_captures a = Some 1 ->
    StateChoose_do_actions events a =
      Ok tt (set_max_captures (Some 4) a) [window_show_choice (Some 4)]) /\
   (max_captures a = Some 4 ->
    StateChoose_do_actions events a =
      Ok tt (set_max_captures (Some 1) a) [window_show_choice (Some 1)])) /\
  (exists a',
     StateChoose_do_actions events a =
       Ok tt a' [window_show_choice (max_captures a')]).
Proof.
  split.
  - intros e Hin He.
    pose proof (found_find is_choice_event events e Hin He) as Hev.
    change (found (find_choice_event events) = true) in Hev.
    split; intros Hmax; exec; rewrite Hev, Hmax; reflexivity.
  - exec.
    destruct (found (find_choice_event events)); simpl.
    + destruct (neq_int (max_captures a) 1); simpl.
      * exists (set_max_captures (Some 1) a). reflexivity.
      * destruct (neq_int (max_captures a) 4); simpl.
        -- exists (set_max_captures (Some 4) a). reflexivity.
        -- exists a. reflexivity.
    + exists a. reflexivity.
Qed.

(** ** The finders *)

Example finders_return_first_match :
  let w := world [] 0 "" false in
  find_quit_event [KEYDOWN K_p; KEYDOWN K_ESCAPE; QUIT] =
    Some (KEYDOWN K_ESCAPE) /\
  find_picture_event [KEYDOWN K_e; BUTTON_DOWN button_print] = None /\
  find_print_event w [KEYDOWN K_e; BUTTON_DOWN button_print] =
    Some (BUTTON_DOWN button_print) /\
  find_choice_event [KEYDOWN K_RIGHT; BUTTON_DOWN button_picture] =
    Some (KEYDOWN K_RIGHT) /\
  find_resize_event [QUIT; VIDEORESIZE (800, 480)] =
    Some (VIDEORESIZE (800, 480)).
Proof. repeat split. Qed.

(** C10. A button-down event of the picture button that the picture-request
    finder returns also passes the test of the choice-change finder, which
    therefore finds an event in the same list: the button that asks for a
    picture in the wait state changes the number of captures in the choose
    state. *)
Theorem picture_button_is_choice_event
  (events : list event) (e : event) (pin : PtbButton) :
  find_picture_event events = Some e ->
  e = BUTTON_DOWN pin ->
  pin = button_picture /\
  is_choice_event e = true /\
  found (find_choice_event events) = true.
Proof.
  intros Hfind ->.
  apply find_some in Hfind. destruct Hfind as [Hin Htest].
  simpl in Htest. apply Z.eqb_eq in Htest. subst pin.
  repeat split.
  unfold find_choice_event.
  destruct (find is_choice_event events) eqn:Hnone; [ reflexivity | ].
  apply (find_none _ _ Hnone) in Hin. discriminate Hin.
Qed.

(** ** The processing state: to the print state or past it *)

(** C4. The transition check of the processing state returns 'print' when
    the printer reports installed and 'finish' when it does not; with the
    printer not installed the state machine goes from processing to finish
    without showing the print screen; and whenever the state machine enters
    the print state, it comes from the processing state with the printer
    installed. *)
Theorem processing_transition_by_printer :
  (forall w a,
     StateProcessing_validate_transition w a =
       Ok (Some (if is_installed w then "print" else "finish")) a []) /\
  (forall w a,
     StateProcessing_validate_transition w a = Ok (Some "print") a [] <->
     is_installed w = true) /\
  (forall w events a,
     active_state a = Some StateProcessing ->
     is_installed w = false ->
     process w events a =
       Ok tt (set_active_state (Some StateFinish) (set_captures [] a))
          [window_show_finished; time_sleep (1 # 2)]) /\
  (forall w events a a' l,
     process w events a = Ok tt a' l ->
     active_state a <> Some StatePrint ->
     active_state a' = Some StatePrint ->
     active_state a = Some StateProcessing /\ is_installed w = true).
Proof.
  repeat split.
  - intros w a. exec. destruct (is_installed w); reflexivity.
  - exec. destruct (is_installed w); [ reflexivity | discriminate ].
  - intros Hw. exec. rewrite Hw. reflexivity.
  - intros w events a Hact Hw. exec.
    repeat (rewrite ?Hact, ?Hw; simpl). reflexivity.
  - destruct (active_state a) as [s|] eqn:Hact;
      [ destruct s | ]; exec; split_hyp H; finish H;
      simpl in *; try discriminate; try congruence.
  - destruct (active_state a) as [s|] eqn:Hact;
      [ destruct s | ]; exec; split_hyp H; finish H;
      simpl in *; try discriminate; try congruence.
Qed.

(** ** Runs of the state machine *)

Lemma run_reachable cfg dir ws : forall a a' l,
  reachable cfg dir a -> run ws a = Ok tt a' l -> reachable cfg dir a'.
Proof.
  induction ws as [|w rest IH]; intros a a' l Hr H.
  - inversion H; subst. exact Hr.
  - simpl in H. unfold bind in H.
    destruct (process w (rev (event_get w)) a) as [[] a1 l1|] eqn:Hp;
      [ | discriminate ].
    destruct (run rest a1) as [[] a2 l2|] eqn:Hrun; [ | discriminate ].
    inversion H; subst.
    apply (IH a1 a' l2); [ | exact Hrun ].
    exact (reachable_process _ _ _ _ _ _ _ Hr Hp).
Qed.

Lemma run_reachable_app_of cfg dir ws a :
  reachable cfg dir a -> raised (run ws a) = false ->
  reachable cfg dir (app_of (run ws a)).
Proof.
  intros Hr Hok.
  destruct (run ws a) as [[] a' l|] eqn:H; [ | discriminate ].
  exact (run_reachable _ _ _ _ _ _ Hr H).
Qed.

Lemma started_reachable cfg dir : reachable cfg dir (started cfg dir).
Proof.
  apply (reachable_start cfg dir (world [] 0 "" false) _
           [window_show_intro None]).
  reflexivity.
Qed.

(** ** The capture state *)


Example join_components :
  Posixpath.join "/home/pi/Pictures" "2018-03-01-10-00-10" =
    "/home/pi/Pictures/2018-03-01-10-00-10" /\
  Posixpath.join "/home/pi/Pictures/" "ptb000.jpg" =
    "/home/pi/Pictures/ptb000.jpg" /\
  Posixpath.join "" "ptb000.jpg" = "ptb000.jpg" /\
  Posixpath.join "/home/pi" "/tmp/ptb000.jpg" = "/tmp/ptb000.jpg".
Proof. repeat split. Qed.

Example d03_first_numbers :
  map Format.d03 [0; 1; 2; 9; 10; 99; 100; 999; 1000]%nat =
  ["000"; "001"; "002"; "009"; "010"; "099"; "100"; "999"; "1000"].
Proof. reflexivity. Qed.



(** ** The number of captures and [max_captures] *)

(** C3, as the specification states it, fails: with 0 captures configured
    the tick of the capture state takes one picture before the transition
    check is made, and the processing state is entered with one capture and
    [max_captures] equal to 0. *)
Lemma captures_exceed_max_of_zero :
  ~ (forall cfg dir a,
       reachable cfg dir a ->
       active_state a = Some StateCapture \/
       active_state a = Some StateProcessing ->
       captures_bounded a).
Proof.
  intros claim.
  specialize (claim (sample_config 0) "/home/pi/Pictures"
    (app_of (run no_capture_configured
               (started (sample_config 0) "/home/pi/Pictures")))).
  assert (Hr : reachable (sample_config 0) "/home/pi/Pictures"
    (app_of (run no_capture_configured
               (started (sample_config 0) "/home/pi/Pictures")))).
  { apply run_reachable_app_of; [ apply started_reachable | ].
    vm_compute. reflexivity. }
  assert (Hact : active_state
    (app_of (run no_capture_configured
               (started (sample_config 0) "/home/pi/Pictures"))) =
    Some StateProcessing).
  { vm_compute. reflexivity. }
  specialize (claim Hr (or_intror Hact)).
  revert claim. vm_compute. intros claim. apply claim. reflexivity.
Qed.

(** C3, amended. When the configured number of captures is at least 1,
    [len(captures) <= max_captures] holds whenever the capture state or the
    processing state is active, also between the per-tick action of the
    capture state and its transition check: that action appends at most one
    path (none when it raises, one when it returns), the state machine leaves
    the capture state on the tick on which the number of captures reaches
    [max_captures], and the tick of the processing state returns and leaves
    [captures] empty. *)
Theorem captures_bounded_by_max
  (cfg : PtbConfigParser) (dir : string) (a : PtbApplication) :
  1 <= PICTURE_captures cfg ->
  reachable cfg dir a ->
  (active_state a = Some StateCapture \/
   active_state a = Some StateProcessing -> captures_bounded a) /\
  (active_state a = Some StateCapture ->
   forall w,
     let a1 := app_of (StateCapture_do_actions w a) in
     (raised (StateCapture_do_actions w a) = true ->
      captures a1 = captures a) /\
     (raised (StateCapture_do_actions w a) = false ->
      exists image_file_name,
        captures a1 = (captures a ++ [image_file_name])%list) /\
     captures_bounded a1) /\
  (active_state a = Some StateCapture ->
   forall w events a' l,
     process w events a = Ok tt a' l ->
     (active_state a' = Some StateProcessing /\
      max_captures a' = Some (Z.of_nat (List.length (captures a')))) \/
     (active_state a' = Some StateCapture /\
      exists n, max_captures a' = Some n /\
                Z.of_nat (List.length (captures a')) < n)) /\
  (active_state a = Some StateProcessing ->
   forall w events,
     exists a' l, process w events a = Ok tt a' l /\ captures a' = []).
Proof.
  intros Hcfg Hr.
  pose proof (reachable_captures_in_step _ _ _ Hcfg Hr) as Hstep.
  pose proof (reachable_well_formed _ _ _ Hr) as (_ & _ & Hwf).
  unfold captures_in_step, captures_bounded in *.
  split; [ | split; [ | split ] ].
  - intros [Hact | Hact]; rewrite Hact in *;
      (destruct (max_captures a); [ lia | tauto ]).
  - intros Hact w. cbv zeta. rewrite Hact in *. destruct Hwf as [_ Hmax].
    destruct (max_captures a) as [n|] eqn:En; [ | congruence ].
    destruct (StateCapture_do_actions w a) as [[] a1 l|e a1 l] eqn:H;
      unfold app_of, raised; exec; split_hyp H;
      inversion H; subst a1 l; clear H; simpl;
      (split; [ intros; try discriminate; reflexivity | ]);
      (split; [ intros; try discriminate; eexists; reflexivity | ]);
      rewrite En, ?length_app; simpl; lia.
  - intros Hact w events a' l H. rewrite Hact in *.
    destruct Hwf as [_ Hmax].
    destruct (max_captures a) as [n|] eqn:En; [ | congruence ].
    exec. split_hyp H; finish H; simpl in *.
    all: repeat match goal with
         | E : (_ <=? _) = true |- _ => apply Z.leb_le in E
         | E : (_ <=? _) = false |- _ => apply Z.leb_gt in E
         end.
    all: rewrite ?length_app in *; simpl in *.
    all: try (left; split; [ reflexivity | rewrite En; f_equal; lia ]).
    all: right; split; [ assumption | ]; exists n; split; [ exact En | lia ].
  - intros Hact w events.
    exec. rewrite Hact. simpl.
    destruct (is_installed w); simpl;
      repeat (progress (rewrite ?Hact; simpl));
      do 2 eexists; split; reflexivity.
Qed.

(** ** The main loop *)

Ltac split_goal :=
  repeat (simpl;
    match goal with
    | |- context [match ?x with _ => _ end] =>
        match type of x with
        | bool => destruct x eqn:?
        | option _ => destruct x eqn:?
        | State => destruct x eqn:?
        | event => destruct x eqn:?
        end
    end).

Lemma set_state_no_release w state_name a :
  filter is_release (log_of (set_state w state_name a)) = [].
Proof.
  exec. split_goal; reflexivity.
Qed.

Lemma process_no_release w events a :
  filter is_release (log_of (process w events a)) = [].
Proof.
  exec. split_goal; reflexivity.
Qed.

Lemma log_of_bind {A B} (m : M A) (k : A -> M B) a :
  log_of (bind m k a) =
  match m a with
  | Ok x a1 l1 => (l1 ++ log_of (k x a1))%list
  | Raise _ _ l1 => l1
  end.
Proof.
  unfold bind. destruct (m a) as [x a1 l1|e a1 l1]; [ | reflexivity ].
  destruct (k x a1); reflexivity.
Qed.

Lemma iteration_no_release w a :
  filter is_release (log_of (iteration w a)) = [].
Proof.
  unfold iteration.
  destruct (found (find_quit_event (rev (event_get w)))); [ reflexivity | ].
  rewrite log_of_bind.
  destruct (when _ _ a) as [x a1 l1|e a1 l1] eqn:H1.
  - assert (Hl1 : filter is_release l1 = []).
    { unfold when in H1.
      destruct (found (find_fullscreen_event w (rev (event_get w))));
        inversion H1; reflexivity. }
    rewrite filter_app, Hl1, log_of_bind. simpl.
    destruct (match find_resize_event (rev (event_get w)) with
              | Some (VIDEORESIZE size) => call (window_resize size)
              | _ => ret tt
              end a1) as [y a2 l2|e a2 l2] eqn:H2.
    + assert (Hl2 : filter is_release l2 = []).
      { destruct (find_resize_event (rev (event_get w))) as [[]|];
          inversion H2; reflexivity. }
      rewrite filter_app, Hl2, log_of_bind. simpl.
      pose proof (process_no_release w (rev (event_get w)) a2) as Hp.
      destruct (process w (rev (event_get w)) a2); simpl in *;
        rewrite ?app_nil_r; exact Hp.
    + destruct (find_resize_event (rev (event_get w))) as [[]|];
        inversion H2; reflexivity.
  - unfold when in H1.
    destruct (found (find_fullscreen_event w (rev (event_get w))));
      inversion H1.
Qed.

Lemma while_true_no_release ws : forall a,
  filter is_release (log_of (while_true ws a)) = [].
Proof.
  induction ws as [|w rest IH]; intros a; [ reflexivity | ].
  simpl. rewrite log_of_bind.
  pose proof (iteration_no_release w a) as Hi.
  destruct (iteration w a) as [[[]|] a1 l1|e a1 l1]; simpl in *.
  - rewrite filter_app, Hi, IH. reflexivity.
  - rewrite app_nil_r. exact Hi.
  - exact Hi.
Qed.

Lemma try_block_no_release boot ws a :
  filter is_release (log_of (try_block boot ws a)) = [].
Proof.
  unfold try_block. rewrite log_of_bind.
  pose proof (set_state_no_release boot "wait" a) as Hs.
  destruct (set_state boot "wait" a) as [x a1 l1|e a1 l1]; simpl in *.
  - rewrite filter_app, Hs, while_true_no_release. reflexivity.
  - exact Hs.
Qed.

(** The loop over more iterations continues where the loop over the first
    ones is. *)
Lemma while_true_app pre rest : forall a a1 l1,
  while_true pre a = Ok still_running a1 l1 ->
  while_true (pre ++ rest) a =
  match while_true rest a1 with
  | Ok v a2 l2 => Ok v a2 (l1 ++ l2)
  | Raise e a2 l2 => Raise e a2 (l1 ++ l2)
  end.
Proof.
  induction pre as [|w pre IH]; intros a a1 l1 H.
  - inversion H; subst. simpl. destruct (while_true rest a1); reflexivity.
  - simpl in *. unfold bind in *.
    destruct (iteration w a) as [[[]|] a' l'|]; try discriminate.
    destruct (while_true pre a') as [v a2 l2|] eqn:Hpre; [ | discriminate ].
    inversion H; subst.
    rewrite (IH a' a1 l2 Hpre).
    destruct (while_true rest a1); rewrite app_assoc; reflexivity.
Qed.

Lemma while_true_quit w rest a :
  found (find_quit_event (rev (event_get w))) = true ->
  while_true (w :: rest) a = Ok left_by_break a [].
Proof.
  intros Hq. simpl. unfold bind, iteration. rewrite Hq. reflexivity.
Qed.

Lemma try_block_quit boot pre w post a a1 l1 :
  try_block boot pre a = Ok still_running a1 l1 ->
  found (find_quit_event (rev (event_get w))) = true ->
  try_block boot (pre ++ w :: post) a = Ok left_by_break a1 l1.
Proof.
  unfold try_block, bind. intros H Hq.
  destruct (set_state boot "wait" a) as [x a0 l0|]; [ | discriminate ].
  destruct (while_true pre a0) as [v a2 l2|] eqn:Hpre; [ | discriminate ].
  inversion H; subst.
  rewrite (while_true_app pre (w :: post) a0 a1 l2 Hpre).
  rewrite (while_true_quit w post a1 Hq), app_nil_r. reflexivity.
Qed.

(** C7. When the events taken at the top of an iteration of the main loop
    contain a quit event, the loop ends there: the state machine is not
    called for that iteration, the application is left as the iterations
    before left it, whatever the active state, and the cleanup sequence is
    run once, after everything else: picture light off, print light off,
    release of the pins, stop of the camera, stop of the printer, release of
    pygame. The same cleanup is run once when an exception ends the loop,
    and the exception goes on. Before the loop ends no release is made. *)
Theorem quit_event_runs_cleanup_once
  (boot : World) (pre : list World) (w : World) (post : list World)
  (a : PtbApplication) :
  (forall e a1 l1,
     try_block boot pre a = Ok still_running a1 l1 ->
     In e (event_get w) -> is_quit_event e = true ->
     main_loop boot (pre ++ w :: post) a =
       Ok left_by_break a1 (l1 ++ cleanup_log) /\
     filter is_release (l1 ++ cleanup_log) =
       [GPIO_cleanup; camera_quit; printer_quit; pygame_quit]) /\
  (forall e a1 l1,
     try_block boot pre a = Raise e a1 l1 ->
     main_loop boot pre a = Raise e a1 (l1 ++ cleanup_log) /\
     filter is_release (l1 ++ cleanup_log) =
       [GPIO_cleanup; camera_quit; printer_quit; pygame_quit]) /\
  (forall a1 l1,
     try_block boot pre a = Ok still_running a1 l1 ->
     main_loop boot pre a = Ok still_running a1 l1 /\
     filter is_release l1 = []).
Proof.
  repeat split.
  - unfold main_loop.
    rewrite (try_block_quit _ _ _ _ _ _ _ H
               (found_find _ _ e (proj1 (in_rev _ _) H0) H1)).
    reflexivity.
  - pose proof (try_block_no_release boot pre a) as Hn. rewrite H in Hn.
    simpl in Hn. rewrite filter_app, Hn. reflexivity.
  - unfold main_loop. rewrite H. reflexivity.
  - pose proof (try_block_no_release boot pre a) as Hn. rewrite H in Hn.
    simpl in Hn. rewrite filter_app, Hn. reflexivity.
  - unfold main_loop. rewrite H. reflexivity.
  - pose proof (try_block_no_release boot pre a) as Hn. rewrite H in Hn.
    exact Hn.
Qed.

(** ** The choose state: the timer *)

Lemma Qle_bool_false (x y : Q) : (y < x)%Q -> Qle_bool x y = false.
Proof.
  intros Hlt. destruct (Qle_bool x y) eqn:H; [ | reflexivity ].
  apply Qle_bool_iff in H. exact (False_ind _ (Qlt_not_le _ _ Hlt H)).
Qed.

Lemma Qle_bool_true (x y : Q) : (x <= y)%Q -> Qle_bool x y = true.
Proof. intros H. now apply Qle_bool_iff. Qed.

Lemma run_app xs ys : forall a a1 l1,
  run xs a = Ok tt a1 l1 ->
  run (xs ++ ys) a =
  match run ys a1 with
  | Ok v a2 l2 => Ok v a2 (l1 ++ l2)
  | Raise e a2 l2 => Raise e a2 (l1 ++ l2)
  end.
Proof.
  induction xs as [|w xs IH]; intros a a1 l1 H.
  - inversion H; subst. simpl. destruct (run ys a1); reflexivity.
  - simpl in *. unfold bind in *.
    destruct (process w (rev (event_get w)) a) as [[] a' l'|];
      [ | discriminate ].
    destruct (run xs a') as [[] a2 l2|] eqn:Hxs; [ | discriminate ].
    inversion H; subst.
    rewrite (IH a' a1 l2 Hxs).
    destruct (run ys a1); rewrite app_assoc; reflexivity.
Qed.

(** A tick of the choose state without choice-change event and before the
    timer expires changes nothing. *)
Lemma choose_tick_idle w a started_at :
  active_state a = Some StateChoose ->
  choose_timer a = {| timeout := 8; time := Some started_at |} ->
  find_choice_event (rev (event_get w)) = None ->
  (time_polled w - started_at < 8)%Q ->
  process w (rev (event_get w)) a =
    Ok tt a [window_show_choice (max_captures a)].
Proof.
  intros Hact Htimer Hev Hlt. exec.
  repeat (progress (rewrite ?Hact, ?Hev, ?Htimer,
                      ?(Qle_bool_false _ _ Hlt); simpl)).
  reflexivity.
Qed.

Lemma choose_ticks_idle started_at ws : forall a,
  active_state a = Some StateChoose ->
  choose_timer a = {| timeout := 8; time := Some started_at |} ->
  (forall x, In x ws -> find_choice_event (rev (event_get x)) = None) ->
  (forall x, In x ws -> (time_polled x - started_at < 8)%Q) ->
  run ws a = Ok tt a (map (fun _ => window_show_choice (max_captures a)) ws).
Proof.
  induction ws as [|w ws IH]; intros a Hact Htimer Hev Hlt; [ reflexivity | ].
  simpl. unfold bind.
  rewrite (choose_tick_idle w a started_at Hact Htimer
             (Hev w (or_introl eq_refl)) (Hlt w (or_introl eq_refl))).
  rewrite IH; auto.
  - intros x Hx. apply Hev. now right.
  - intros x Hx. apply Hlt. now right.
Qed.

(** The tick of the choose state on which the timer has expired enters the
    capture state. *)
Lemma choose_tick_expired w a started_at :
  active_state a = Some StateChoose ->
  choose_timer a = {| timeout := 8; time := Some started_at |} ->
  find_choice_event (rev (event_get w)) = None ->
  (8 <= time_polled w - started_at)%Q ->
  makedirs_fails w = false ->
  process w (rev (event_get w)) a =
    Ok tt
      (set_dirname (Some (Posixpath.join (savedir a) (strftime w)))
         (set_previous_picture_file None
            (set_previous_picture None
               (set_active_state (Some StateCapture) a))))
      [window_show_choice (max_captures a);
       os_makedirs (Posixpath.join (savedir a) (strftime w));
       camera_preview].
Proof.
  intros Hact Htimer Hev Hle Hdir. exec.
  repeat (progress (rewrite ?Hact, ?Hev, ?Htimer, ?Hdir,
                      ?(Qle_bool_true _ _ Hle); simpl)).
  reflexivity.
Qed.

(** C8. Whenever the state machine enters the choose state, [max_captures]
    is the configured number of captures and the timer of 8 seconds is
    started at the time of the entry. From there, over ticks without
    choice-change event: as long as fewer than 8 seconds have passed since
    the entry the application stays as it is, in the choose state; and on the
    tick on which 8 seconds or more have passed the state machine enters the
    capture state, with [max_captures] still the configured number. *)
Theorem choose_waits_for_timer
  (cfg : PtbConfigParser) (dir : string)
  (a : PtbApplication) (w0 : World) (events0 : list event)
  (a1 : PtbApplication) (l0 : list action) :
  reachable cfg dir a ->
  active_state a <> Some StateChoose ->
  process w0 events0 a = Ok tt a1 l0 ->
  active_state a1 = Some StateChoose ->
  max_captures a1 = Some (PICTURE_captures cfg) /\
  choose_timer a1 = {| timeout := 8; time := Some (time_started w0) |} /\
  forall ws w,
    (forall x, In x (ws ++ [w]) ->
               find_choice_event (rev (event_get x)) = None) ->
    (forall x, In x ws -> (time_polled x - time_started w0 < 8)%Q) ->
    (8 <= time_polled w - time_started w0)%Q ->
    makedirs_fails w = false ->
    (exists l, run ws a1 = Ok tt a1 l) /\
    (exists a2 l,
       run (ws ++ [w]) a1 = Ok tt a2 l /\
       active_state a2 = Some StateCapture /\
       max_captures a2 = Some (PICTURE_captures cfg)).
Proof.
  intros Hr Hnot H Hact1.
  destruct (reachable_well_formed _ _ _ Hr) as (Hc & _ & _).
  destruct (reachable_config _ _ _ Hr) as [Hcfg _]. subst cfg.
  assert (Hentry : max_captures a1 = Some (PICTURE_captures (config a)) /\
                   choose_timer a1 =
                     {| timeout := 8; time := Some (time_started w0) |}).
  { destruct (active_state a) as [s|] eqn:Hact.
    - destruct s; exec; split_hyp H; finish H; simpl in *;
        try congruence; try discriminate.
      all: unfold PoolingTimer_start; rewrite Hc; split; reflexivity.
    - exec. rewrite Hact in H. finish H. congruence. }
  destruct Hentry as [Hmax Htimer]. repeat split; auto.
  - eexists. apply (choose_ticks_idle (time_started w0)); auto.
    intros x Hx. apply H0, in_or_app. now left.
  - assert (Hidle := choose_ticks_idle (time_started w0) ws a1 Hact1 Htimer).
    assert (Hlast : In w (ws ++ [w])).
    { apply in_or_app. right. now left. }
    rewrite (run_app ws [w] a1 a1 _ (Hidle
               (fun x Hx => H0 x (in_or_app _ _ _ (or_introl Hx))) H1)).
    simpl. unfold bind.
    rewrite (choose_tick_expired w a1 (time_started w0) Hact1 Htimer
               (H0 w Hlast) H2 H3).
    do 2 eexists. split; [ reflexivity | ]. split; [ reflexivity | ].
    simpl. exact Hmax.
Qed.

(** ** The print state *)

Lemma process_printed w events a a' l :
  printed a = true -> process w events a = Ok tt a' l -> printed a' = true.
Proof.
  intros Hp H.
  destruct (active_state a) as [s|] eqn:Hact;
    [ destruct s | ]; exec; split_hyp H; finish H; auto.
Qed.

Lemma run_printed ws : forall a a' l,
  printed a = true -> run ws a = Ok tt a' l -> printed a' = true.
Proof.
  induction ws as [|w ws IH]; intros a a' l Hp H.
  - inversion H; subst. exact Hp.
  - simpl in H. unfold bind in H.
    destruct (process w (rev (event_get w)) a) as [[] a1 l1|] eqn:H1;
      [ | discriminate ].
    destruct (run ws a1) as [[] a2 l2|] eqn:H2; [ | discriminate ].
    inversion H; subst.
    exact (IH a1 a' l2 (process_printed _ _ _ _ _ Hp H1) H2).
Qed.

(** A print request in the print state: the picture is sent to the printer,
    the flag is set and the state machine goes to the finish state on the
    same tick, whatever the timer says. *)
Lemma print_request_finishes cfg dir a w events :
  reachable cfg dir a ->
  active_state a = Some StatePrint ->
  found (find_print_event w events) = true ->
  print_file_fails w = false ->
  exists path a1 l1 a' l,
    previous_picture_file a = Some path /\
    StatePrint_do_actions w events a = Ok tt a1 l1 /\
    printed a1 = true /\
    In (printer_print_file (Some path)) l1 /\
    process w events a = Ok tt a' l /\
    printed a' = true /\
    active_state a' = Some StateFinish.
Proof.
  intros Hr Hact Hev Hok.
  destruct (reachable_well_formed _ _ _ Hr) as (_ & _ & Hwf).
  rewrite Hact in Hwf. destruct Hwf as (_ & Hfile & Htimer).
  destruct (previous_picture_file a) as [path|] eqn:Ef; [ | discriminate ].
  destruct (time (print_timer a)) as [t0|] eqn:Et; [ | congruence ].
  exists path. simpl in Hfile. exec.
  repeat (progress (rewrite ?Hact, ?Ef, ?Hev, ?Hfile, ?Hok, ?Et,
                      ?orb_true_r; simpl)).
  do 4 eexists. repeat split. simpl. auto.
Qed.

(** Without print request and with the flag not set, the print state is
    left when its timer of 5 seconds has expired, and not before. *)
Lemma print_waits_for_timer_when_not_printed a w events started_at :
  active_state a = Some StatePrint ->
  printed a = false ->
  print_timer a = {| timeout := 5; time := Some started_at |} ->
  find_print_event w events = None ->
  exists l,
    process w events a =
      Ok tt
        (if Qle_bool 5 (time_polled w - started_at)
         then set_active_state (Some StateFinish) a else a) l.
Proof.
  intros Hact Hflag Htimer Hev. exec.
  destruct (previous_picture_file a) eqn:Ef;
    destruct (Qle_bool 5 (time_polled w - started_at)) eqn:Hq;
    repeat (progress (rewrite ?Hact, ?Ef, ?Hev, ?Htimer, ?Hflag, ?Hq; simpl));
    eexists; reflexivity.
Qed.

(** C9. The flag [printed] of the print state is false when the
    application is built, the entry hook of the print state leaves it as it
    is, and no tick of the state machine takes it back from true to false.
    So once a print was made in the print state, whenever the print state is
    active again its transition check returns 'finish' at once, whatever the
    timer and the events; the state machine then goes to the finish state on
    the first tick, unless the printer fails on a new print request. *)
Theorem printed_flag_is_never_reset
  (cfg : PtbConfigParser) (dir : string) :
  printed (PtbApplication_init cfg dir) = false /\
  (forall w a,
     exists l,
       StatePrint_entry_actions w a =
         Ok tt (set_print_timer (PoolingTimer_start (time_started w)
                                   (print_timer a)) a) l /\
       printed (app_of (StatePrint_entry_actions w a)) = printed a) /\
  (forall a ws a' l w events,
     reachable cfg dir a ->
     printed a = true ->
     run ws a = Ok tt a' l ->
     active_state a' = Some StatePrint ->
     printed a' = true /\
     StatePrint_validate_transition w a' = Ok (Some "finish") a' [] /\
     (forall a1 l1,
        StatePrint_do_actions w events a' = Ok tt a1 l1 ->
        StatePrint_validate_transition w a1 = Ok (Some "finish") a1 []) /\
     (print_file_fails w = false ->
      exists a'' l',
        process w events a' = Ok tt a'' l' /\
        active_state a'' = Some StateFinish)).
Proof.
  split; [ reflexivity | split ].
  - intros w a. eexists. split; reflexivity.
  - intros a ws a' l w events Hr Hp Hrun Hact.
    pose proof (run_printed _ _ _ _ Hp Hrun) as Hp'.
    pose proof (run_reachable _ _ _ _ _ _ Hr Hrun) as Hr'.
    destruct (reachable_well_formed _ _ _ Hr') as (_ & _ & Hwf).
    rewrite Hact in Hwf. destruct Hwf as (_ & Hfile & Htimer).
    destruct (time (print_timer a')) as [t0|] eqn:Et; [ | congruence ].
    assert (Hcheck : forall b, time (print_timer b) = Some t0 ->
                     printed b = true ->
                     StatePrint_validate_transition w b =
                       Ok (Some "finish") b []).
    { intros b Hb1 Hb2. exec. rewrite Hb1, Hb2. simpl.
      rewrite orb_true_r. reflexivity. }
    repeat split; auto.
    + intros a1 l1 Hdo. apply Hcheck.
      * exec. split_hyp Hdo; finish Hdo; auto.
      * exec. split_hyp Hdo; finish Hdo; auto.
    + intros Hok.
      destruct (previous_picture_file a') as [path|] eqn:Ef;
        [ | discriminate ].
      simpl in Hfile. exec.
      destruct (found (find_print_event w events));
        repeat (progress (rewrite ?Hact, ?Ef, ?Hfile, ?Hok, ?Et, ?Hp',
                            ?orb_true_r; simpl));
        do 2 eexists; split; reflexivity.
Qed.

(** C1, at the input on which the code departs from it. In the first cycle
    a print is made in the print state. When the print state is entered again
    in the second cycle, at second 46, the flag is still set: on the next
    tick, at second 47, with no event at all and 4 seconds before the timer
    expires, the transition check returns 'finish' and the print state is
    left. *)
Theorem print_state_left_before_timer :
  let a := app_of (run printed_in_first_cycle
                     (started (sample_config 1) "/home/pi/Pictures")) in
  let w := one_second_later in
  raised (run printed_in_first_cycle
            (started (sample_config 1) "/home/pi/Pictures")) = false /\
  active_state a = Some StatePrint /\
  print_timer a = {| timeout := 5; time := Some 46%Q |} /\
  printed a = true /\
  find_print_event w (rev (event_get w)) = None /\
  Qle_bool 5 (time_polled w - 46) = false /\
  StatePrint_validate_transition w a = Ok (Some "finish") a [] /\
  active_state (app_of (process w (rev (event_get w)) a)) =
    Some StateFinish.
Proof.
  vm_compute. repeat split.
Qed.

(** ** A whole cycle *)

Lemma run_cons w ws a a1 l1 a2 l2 :
  process w (rev (event_get w)) a = Ok tt a1 l1 ->
  run ws a1 = Ok tt a2 l2 ->
  run (w :: ws) a = Ok tt a2 (l1 ++ l2).
Proof.
  intros H1 H2. simpl. unfold bind. rewrite H1, H2. reflexivity.
Qed.








(** * The properties on the sample surroundings *)

Lemma reachable_after cfg dir ws :
  raised (run ws (started cfg dir)) = false ->
  reachable cfg dir (app_of (run ws (started cfg dir))).
Proof.
  intros H. apply run_reachable_app_of; [ apply started_reachable | exact H ].
Qed.

(** The picture button in the choose state, one capture asked: four. *)
Lemma choose_do_actions_toggles_sample :
  StateChoose_do_actions [BUTTON_DOWN button_picture]
    (set_max_captures (Some 1)
       (PtbApplication_init (sample_config 1) "/home/pi/Pictures")) =
  Ok tt
    (set_max_captures (Some 4)
       (set_max_captures (Some 1)
          (PtbApplication_init (sample_config 1) "/home/pi/Pictures")))
    [window_show_choice (Some 4)].
Proof.
  apply (proj1 (choose_do_actions_toggles [BUTTON_DOWN button_picture]
                  (set_max_captures (Some 1)
                     (PtbApplication_init (sample_config 1)
                        "/home/pi/Pictures")))
           (BUTTON_DOWN button_picture)).
  - left. reflexivity.
  - reflexivity.
  - reflexivity.
Defined.

(** The picture button pressed after the left arrow: the picture finder
    returns the button, the choice finder finds an event too. *)
Lemma picture_button_is_choice_event_sample :
  button_picture = button_picture /\
  is_choice_event (BUTTON_DOWN button_picture) = true /\
  found (find_choice_event
           [KEYDOWN K_LEFT; BUTTON_DOWN button_picture]) = true.
Proof.
  apply (picture_button_is_choice_event
           [KEYDOWN K_LEFT; BUTTON_DOWN button_picture]
           (BUTTON_DOWN button_picture) button_picture).
  - reflexivity.
  - reflexivity.
Defined.

(** Without printer, the processing state is left for the finish state. *)
Lemma processing_transition_by_printer_sample :
  process (world [] 16 "2018-03-01-10-00-16" false) [] in_processing =
  Ok tt (set_active_state (Some StateFinish) (set_captures [] in_processing))
     [window_show_finished; time_sleep (1 # 2)].
Proof.
  apply (proj1 (proj2 (proj2 processing_transition_by_printer))).
  - vm_compute. reflexivity.
  - reflexivity.
Defined.


(** One capture asked and one taken, through the three iterations of
    [no_capture_configured]: the bound is reached, and the tick of the
    processing state empties [captures]. *)
Lemma captures_bounded_by_max_sample :
  let w := world [] 16 "2018-03-01-10-00-16" false in
  active_state one_capture_asked = Some StateProcessing /\
  captures one_capture_asked =
    ["/home/pi/Pictures/2018-03-01-10-00-11/ptb000.jpg"] /\
  max_captures one_capture_asked = Some 1 /\
  captures_bounded one_capture_asked /\
  exists a' l,
    process w [] one_capture_asked = Ok tt a' l /\ captures a' = [].
Proof.
  intros w.
  assert (Hact : active_state one_capture_asked = Some StateProcessing).
  { vm_compute. reflexivity. }
  destruct (captures_bounded_by_max (sample_config 1) "/home/pi/Pictures"
              one_capture_asked) as (Hbound & _ & _ & Hexit).
  - vm_compute. discriminate.
  - apply reachable_after. vm_compute. reflexivity.
  - split; [ exact Hact | ].
    split; [ vm_compute; reflexivity | ].
    split; [ vm_compute; reflexivity | ].
    split; [ exact (Hbound (or_intror Hact)) | exact (Hexit Hact w []) ].
Defined.

(** Escape in the choose state: the loop ends and the cleanup is run. And
    when the directory of the cycle cannot be created: the exception ends the
    loop and the cleanup is run. *)
Lemma quit_event_runs_cleanup_once_sample :
  let boot := world [] 0 "2018-03-01-10-00-00" false in
  let w1 := world [BUTTON_DOWN button_picture] 1 "2018-03-01-10-00-01" false in
  let w := world [KEYDOWN K_ESCAPE] 2 "2018-03-01-10-00-02" false in
  let a := PtbApplication_init (sample_config 1) "/home/pi/Pictures" in
  (main_loop boot ([w1] ++ [w]) a =
     Ok left_by_break (app_of (try_block boot [w1] a))
        (log_of (try_block boot [w1] a) ++ cleanup_log) /\
   filter is_release (log_of (try_block boot [w1] a) ++ cleanup_log) =
     [GPIO_cleanup; camera_quit; printer_quit; pygame_quit]) /\
  (main_loop boot [w1; disk_full 10] a =
     Raise OSError (app_of (try_block boot [w1; disk_full 10] a))
        (log_of (try_block boot [w1; disk_full 10] a) ++ cleanup_log) /\
   filter is_release
     (log_of (try_block boot [w1; disk_full 10] a) ++ cleanup_log) =
     [GPIO_cleanup; camera_quit; printer_quit; pygame_quit]).
Proof.
  intros boot w1 w a. split.
  - apply (proj1 (quit_event_runs_cleanup_once boot [w1] w [] a)
             (KEYDOWN K_ESCAPE)).
    + vm_compute. reflexivity.
    + left. reflexivity.
    + reflexivity.
  - apply (proj1 (proj2 (quit_event_runs_cleanup_once
                           boot [w1; disk_full 10] w [] a))).
    vm_compute. reflexivity.
Defined.

(** The choose state entered at second 1: a tick at second 5 changes
    nothing, the tick at second 10 enters the capture state, with the one
    capture configured. *)
Lemma choose_waits_for_timer_sample :
  let a := started (sample_config 1) "/home/pi/Pictures" in
  let w0 := world [BUTTON_DOWN button_picture] 1 "2018-03-01-10-00-01" false in
  let a1 := app_of (process w0 (rev (event_get w0)) a) in
  let ws := [world [KEYDOWN K_e] 5 "2018-03-01-10-00-05" false] in
  let w := world [] 10 "2018-03-01-10-00-10" false in
  (exists l, run ws a1 = Ok tt a1 l) /\
  (exists a2 l,
     run (ws ++ [w]) a1 = Ok tt a2 l /\
     active_state a2 = Some StateCapture /\
     max_captures a2 = Some (PICTURE_captures (sample_config 1))).
Proof.
  intros a w0 a1 ws w.
  refine (proj2 (proj2 (choose_waits_for_timer (sample_config 1)
                          "/home/pi/Pictures" a w0 (rev (event_get w0)) a1
                          (log_of (process w0 (rev (event_get w0)) a))
                          _ _ _ _)) ws w _ _ _ _).
  - apply started_reachable.
  - vm_compute. discriminate.
  - vm_compute. reflexivity.
  - vm_compute. reflexivity.
  - intros x [<- | [<- | []]]; reflexivity.
  - intros x [<- | []]. reflexivity.
  - vm_compute. discriminate.
  - reflexivity.
Defined.

(** A print in the first cycle: in the second cycle the print state is left
    on its first tick. *)
Lemma printed_flag_is_never_reset_sample :
  let a := app_of (run (firstn 5 printed_in_first_cycle)
                     (started (sample_config 1) "/home/pi/Pictures")) in
  let a' := app_of (run (skipn 5 printed_in_first_cycle) a) in
  let w := one_second_later in
  printed a' = true /\
  StatePrint_validate_transition w a' = Ok (Some "finish") a' [] /\
  (forall a1 l1,
     StatePrint_do_actions w [] a' = Ok tt a1 l1 ->
     StatePrint_validate_transition w a1 = Ok (Some "finish") a1 []) /\
  (print_file_fails w = false ->
   exists a'' l',
     process w [] a' = Ok tt a'' l' /\
     active_state a'' = Some StateFinish).
Proof.
  intros a a' w.
  refine (proj2 (proj2 (printed_flag_is_never_reset (sample_config 1)
                          "/home/pi/Pictures"))
            a (skipn 5 printed_in_first_cycle) a'
            (log_of (run (skipn 5 printed_in_first_cycle) a)) w [] _ _ _ _).
  - apply reachable_after. vm_compute. reflexivity.
  - vm_compute. reflexivity.
  - vm_compute. reflexivity.
  - vm_compute. reflexivity.
Defined.


(** * Further properties of the workflow *)

(** ** The order of the states *)

(** X1. A tick of the state machine that returns leaves the active state
    as it is or moves it along the workflow: wait to choose, choose to
    capture, capture to processing, processing to print or to finish, print
    to finish, finish to wait. No state is skipped and none is gone back
    to. *)
Theorem process_follows_workflow
  (w : World) (events : list event) (a a' : PtbApplication)
  (l : list action) (s : State) :
  active_state a = Some s ->
  process w events a = Ok tt a' l ->
  exists s', active_state a' = Some s' /\ (s' = s \/ follows s s' = true).
Proof.
  intros Hact H.
  destruct s; exec; split_hyp H; finish H; rewrite ?Hact;
    eexists; (split; [ reflexivity | ]); auto.
Qed.

(** The cases that the invariants of the reachable applications exclude. *)
Ltac excluded :=
  repeat match goal with
  | H : _ /\ _ |- _ => destruct H
  end;
  try congruence;
  repeat match goal with
  | H : match ?x with _ => _ end = _ |- _ =>
      destruct x eqn:?; try discriminate H
  end;
  try congruence.

(** X2. From a reachable application a tick of the state machine never
    raises [TypeError] or the error of an unknown state: the directory of the
    cycle is set before a file name is joined to it, [max_captures] is set
    before the number of captures is compared with it, the timers are
    started before they are asked, and every transition names one of the six
    states that are registered. *)
Theorem process_raises_no_internal_error
  (cfg : PtbConfigParser) (dir : string) (a : PtbApplication)
  (w : World) (events : list event) :
  reachable cfg dir a ->
  forall e a' l,
    process w events a = Raise e a' l ->
    e <> TypeError /\ forall state_name, e <> UnknownState state_name.
Proof.
  intros Hr e a' l H.
  destruct (reachable_well_formed _ _ _ Hr) as (_ & _ & Hwf).
  destruct (active_state a) as [s|] eqn:Hact; [ | contradiction ].
  destruct s; exec; split_hyp H; finish H; simpl in *;
    try (split; [ discriminate | intros ?; discriminate ]); excluded.
Qed.

(** ** The choose state, whatever the number of captures *)

(** X3. A choice-change event in the choose state selects 4 captures
    when 1 was selected and 1 capture in every other case, also when the
    configured number is neither 1 nor 4 or when nothing was selected yet;
    several choice-change events in one tick count as one. Without such an
    event the application is unchanged. The timer of the state is never
    restarted by the per-tick action. *)
Theorem choose_press_selects_one_or_four
  (events : list event) (a : PtbApplication) :
  (found (find_choice_event events) = true ->
   StateChoose_do_actions events a =
     let number := if neq_int (max_captures a) 1 then 1 else 4 in
     Ok tt (set_max_captures (Some number) a)
        [window_show_choice (Some number)]) /\
  (found (find_choice_event events) = false ->
   StateChoose_do_actions events a =
     Ok tt a [window_show_choice (max_captures a)]) /\
  choose_timer (app_of (StateChoose_do_actions events a)) = choose_timer a.
Proof.
  repeat split.
  - intros Hev. exec. rewrite Hev. simpl.
    destruct (max_captures a) as [n|]; simpl; [ | reflexivity ].
    destruct (Z.eqb_spec n 1) as [->|Hn]; reflexivity.
  - intros Hev. exec. rewrite Hev. reflexivity.
  - exec. destruct (found (find_choice_event events)); simpl;
      [ | reflexivity ].
    destruct (neq_int (max_captures a) 1); simpl; [ reflexivity | ].
    destruct (neq_int (max_captures a) 4); reflexivity.
Qed.

(** X4. Choice-change events do not extend the choose state: on a tick
    at which 8 seconds or more have passed since the entry, the state machine
    enters the capture state whatever the events are, with the number of
    captures that the events of that tick select; before that it stays in the
    choose state. *)
Theorem choose_leaves_on_time_whatever_events
  (w : World) (events : list event) (a : PtbApplication) (started_at : Q) :
  active_state a = Some StateChoose ->
  choose_timer a = {| timeout := 8; time := Some started_at |} ->
  makedirs_fails w = false ->
  exists a' l,
    process w events a = Ok tt a' l /\
    active_state a' =
      Some (if Qle_bool 8 (time_polled w - started_at)
            then StateCapture else StateChoose) /\
    choose_timer a' = choose_timer a /\
    max_captures a' =
      (if found (find_choice_event events)
       then Some (if neq_int (max_captures a) 1 then 1 else 4)
       else max_captures a).
Proof.
  intros Hact Htimer Hdir.
  assert (Ht : time (choose_timer a) = Some started_at)
    by (rewrite Htimer; reflexivity).
  assert (Hto : timeout (choose_timer a) = 8%Q)
    by (rewrite Htimer; reflexivity).
  destruct (process w events a) as [[] a' l|e a' l] eqn:H.
  - exists a', l. split; [ reflexivity | ].
    exec; split_hyp H; inversion H; subst a' l; clear H;
      rewrite ?Hact, ?Ht, ?Hto in *; simpl in *;
      repeat match goal with
      | E : Some _ = Some _ |- _ => inversion E; clear E
      end;
      repeat match goal with
      | E : Qle_bool _ _ = _ |- _ => rewrite E
      end;
      destruct (found (find_choice_event events));
      destruct (neq_int (max_captures a) 1) eqn:H1;
      destruct (neq_int (max_captures a) 4) eqn:H4;
      simpl in *; try discriminate; auto.
    all: unfold neq_int in *; destruct (max_captures a) as [n|];
      try discriminate;
      destruct (Z.eqb_spec n 1), (Z.eqb_spec n 4); simpl in *;
      try discriminate; lia.
  - exfalso.
    exec; split_hyp H; inversion H; subst; clear H;
      rewrite ?Hact, ?Ht, ?Hto in *; simpl in *; congruence.
Qed.

(** ** The printer *)

(** Run the computation of the goal, using the tests whose value is known
    and splitting on the others. *)
Ltac use_known :=
  repeat match goal with
  | E : _ = true |- _ => progress (rewrite E)
  | E : _ = false |- _ => progress (rewrite E)
  | E : _ = Some _ |- _ => progress (rewrite E)
  | E : _ = None |- _ => progress (rewrite E)
  | |- context [_ && false] => rewrite andb_false_r
  end.

Ltac run_goal :=
  repeat first
    [ progress simpl
    | progress use_known
    | match goal with
      | |- context [match ?x with _ => _ end] =>
          match type of x with
          | bool => destruct x eqn:?
          | option _ => destruct x eqn:?
          end
      end ].

Lemma files_printed_process
  (w : World) (events : list event) (a : PtbApplication) :
  files_printed (log_of (process w events a)) =
  if print_asked w events a && negb (print_file_fails w)
  then [previous_picture_file a] else [].
Proof.
  unfold print_asked.
  destruct (active_state a) as [s|] eqn:Hact;
    [ | exec; rewrite Hact; reflexivity ].
  destruct s.
  2, 3, 4, 6: exec; run_goal; reflexivity.
  - destruct (found (find_print_event w events)) eqn:Hev;
      destruct (truthy (previous_picture_file a)) eqn:Hfile;
      destruct (is_installed w) eqn:Hinst;
      destruct (print_file_fails w) eqn:Hfail;
      exec; run_goal; reflexivity.
  - destruct (found (find_print_event w events)) eqn:Hev;
      destruct (truthy (previous_picture_file a)) eqn:Hfile;
      destruct (print_file_fails w) eqn:Hfail;
      exec; run_goal; reflexivity.
Qed.

(** X5. During a tick of the state machine [printer.print_file] is
    called at most once, with the file of the merged picture, and exactly
    when the wait state (printer installed) or the print state is active,
    the events hold a print request, that file is a non-empty string and the
    printer does not fail. No other state prints. *)
Theorem printer_called_only_when_asked
  (w : World) (events : list event) (a : PtbApplication) :
  files_printed (log_of (process w events a)) =
  if print_asked w events a && negb (print_file_fails w)
  then [previous_picture_file a] else [].
Proof. exact (files_printed_process w events a). Qed.

Lemma files_printed_app l1 l2 :
  files_printed (l1 ++ l2) = (files_printed l1 ++ files_printed l2)%list.
Proof. apply flat_map_app. Qed.

(** A tick of the wait state without picture request. *)
Lemma wait_tick_idle w events a :
  active_state a = Some StateWait ->
  found (find_picture_event events) = false ->
  print_file_fails w = false ->
  exists l, process w events a = Ok tt a l.
Proof.
  intros Hact Hev Hok. exec. rewrite Hact. simpl.
  destruct (found (find_print_event w events) &&
            truthy (previous_picture_file a) && is_installed w);
    simpl; rewrite ?Hok, Hev; simpl; eexists; reflexivity.
Qed.

(** X6. While no picture is requested the wait state changes nothing in
    the application, over any number of ticks, and it sends the file of the
    last merged picture to the printer once for every tick that holds a print
    request (when there is such a file and the printer is installed): the
    last picture can be printed again any number of times. *)
Theorem wait_serves_every_print_request
  (ws : list World) (a : PtbApplication) :
  active_state a = Some StateWait ->
  (forall w, In w ws ->
     found (find_picture_event (rev (event_get w))) = false /\
     print_file_fails w = false) ->
  exists l,
    run ws a = Ok tt a l /\
    files_printed l =
      flat_map (fun w => if print_asked w (rev (event_get w)) a
                         then [previous_picture_file a] else []) ws.
Proof.
  intros Hact. induction ws as [|w ws IH]; intros Hws.
  - exists []. split; reflexivity.
  - destruct (Hws w (or_introl eq_refl)) as [Hev Hok].
    destruct (wait_tick_idle w (rev (event_get w)) a Hact Hev Hok)
      as [l1 H1].
    destruct IH as (l2 & H2 & Hl2).
    { intros x Hx. apply Hws. now right. }
    exists (l1 ++ l2)%list. split.
    + exact (run_cons _ _ _ _ _ _ _ H1 H2).
    + rewrite files_printed_app, Hl2. simpl. f_equal.
      pose proof (files_printed_process w (rev (event_get w)) a) as Hp.
      rewrite H1, Hok, andb_true_r in Hp. exact Hp.
Qed.

(** ** Without printer *)

Lemma process_without_printer w events a :
  active_state a <> Some StatePrint ->
  is_installed w = false ->
  filter print_related (log_of (process w events a)) = [] /\
  active_state (app_of (process w events a)) <> Some StatePrint.
Proof.
  intros Hact Hinst.
  destruct (active_state a) as [s|] eqn:Hs.
  - destruct s; try congruence; exec;
      run_goal; split; (reflexivity || congruence).
  - exec. rewrite Hs. simpl. split; [ reflexivity | congruence ].
Qed.

Lemma log_of_run_cons w ws a :
  log_of (run (w :: ws) a) =
  match process w (rev (event_get w)) a with
  | Ok _ a1 l1 => (l1 ++ log_of (run ws a1))%list
  | Raise _ _ l1 => l1
  end.
Proof. simpl. apply log_of_bind. Qed.

Lemma app_of_run_cons w ws a :
  app_of (run (w :: ws) a) =
  match process w (rev (event_get w)) a with
  | Ok _ a1 _ => app_of (run ws a1)
  | Raise _ a1 _ => a1
  end.
Proof.
  simpl. unfold bind.
  destruct (process w (rev (event_get w)) a) as [x a1 l1|]; [ | reflexivity ].
  destruct (run ws a1); reflexivity.
Qed.

(** X7. When the printer is not installed on any tick, then from
    startup on, the print state is never active and the log holds no call
    that sends a file to the printer, shows the print screen, or switches on
    or blinks the print light. *)
Theorem without_printer_nothing_print_related
  (cfg : PtbConfigParser) (dir : string) (ws : list World) :
  (forall w, In w ws -> is_installed w = false) ->
  filter print_related (log_of (run ws (started cfg dir))) = [] /\
  active_state (app_of (run ws (started cfg dir))) <> Some StatePrint.
Proof.
  assert (Hgen : forall ws a,
            active_state a <> Some StatePrint ->
            (forall w, In w ws -> is_installed w = false) ->
            filter print_related (log_of (run ws a)) = [] /\
            active_state (app_of (run ws a)) <> Some StatePrint).
  { clear ws. induction ws as [|w ws IH]; intros a Hact Hws.
    - split; [ reflexivity | exact Hact ].
    - rewrite log_of_run_cons, app_of_run_cons.
      destruct (process_without_printer w (rev (event_get w)) a Hact
                  (Hws w (or_introl eq_refl))) as [Hl Ha].
      destruct (process w (rev (event_get w)) a) as [x a1 l1|e a1 l1];
        simpl in *; [ | split; assumption ].
      destruct (IH a1 Ha (fun y Hy => Hws y (or_intror Hy))) as [Hl' Ha'].
      rewrite filter_app, Hl, Hl'. split; [ reflexivity | exact Ha' ]. }
  intros Hws. apply Hgen; [ discriminate | exact Hws ].
Qed.

(** ** The camera *)

Lemma camera_protocol_app l1 : forall b l2,
  camera_protocol b (l1 ++ l2) =
  match camera_protocol b l1 with
  | Some b' => camera_protocol b' l2
  | None => None
  end.
Proof.
  induction l1 as [|x l1 IH]; intros b l2; [ reflexivity | ].
  destruct x; simpl; try apply IH; destruct b; try reflexivity; apply IH.
Qed.

Lemma process_camera_protocol w events a a' l :
  process w events a = Ok tt a' l ->
  camera_protocol (capturing a) l = Some (capturing a').
Proof.
  intros H. unfold capturing.
  destruct (active_state a) as [s|] eqn:Hact.
  - destruct s; exec; split_hyp H; finish H; rewrite ?Hact; reflexivity.
  - exec. rewrite Hact in H. finish H. rewrite Hact. reflexivity.
Qed.

(** X8. Over any run of the state machine from startup, the preview
    of the camera is started only when it is not running, stopped only when
    it is running, every picture is taken while it is running, and it is
    running at the end exactly when the capture state is active. *)
Theorem camera_used_only_while_previewing
  (cfg : PtbConfigParser) (dir : string) (ws : list World)
  (a : PtbApplication) (l : list action) :
  run ws (started cfg dir) = Ok tt a l ->
  camera_protocol false l = Some (capturing a).
Proof.
  assert (Hgen : forall ws a0 a l,
            run ws a0 = Ok tt a l ->
            camera_protocol (capturing a0) l = Some (capturing a)).
  { clear. induction ws as [|w ws IH]; intros a0 a l H.
    - inversion H; subst. reflexivity.
    - simpl in H. unfold bind in H.
      destruct (process w (rev (event_get w)) a0) as [[] a1 l1|] eqn:H1;
        [ | discriminate ].
      destruct (run ws a1) as [[] a2 l2|] eqn:H2; [ | discriminate ].
      inversion H; subst.
      rewrite camera_protocol_app, (process_camera_protocol _ _ _ _ _ H1).
      exact (IH a1 a l2 H2). }
  intros H. exact (Hgen ws (started cfg dir) a l H).
Qed.

(** ** The captures of a cycle *)

Lemma capture_names_snoc d first count :
  capture_names d first (S count) =
  (capture_names d first count ++ [capture_name d (first + count)])%list.
Proof.
  unfold capture_names. rewrite seq_S, map_app. reflexivity.
Qed.


(** ** The names of the files *)

Lemma length_append (s t : string) :
  String.length (s ++ t) = (String.length s + String.length t)%nat.
Proof.
  induction s as [|c s IH]; [ reflexivity | ].
  change (S (String.length (s ++ t)) =
          S (String.length s + String.length t)).
  now rewrite IH.
Qed.

Lemma append_cancel_l (s x y : string) :
  (s ++ x)%string = (s ++ y)%string -> x = y.
Proof.
  induction s as [|c s IH]; intros H; [ exact H | ].
  apply IH.
  change (String c (s ++ x) = String c (s ++ y)) in H. congruence.
Qed.

Lemma append_cancel_r (t : string) : forall x y : string,
  (x ++ t)%string = (y ++ t)%string -> x = y.
Proof.
  induction x as [|c x IH]; intros [|c' y] H.
  - reflexivity.
  - apply (f_equal String.length) in H.
    change (String.length t = S (String.length (y ++ t))) in H.
    rewrite length_append in H. lia.
  - apply (f_equal String.length) in H.
    change (S (String.length (x ++ t)) = String.length t) in H.
    rewrite length_append in H. lia.
  - change (String c (x ++ t) = String c' (y ++ t)) in H.
    inversion H. f_equal. now apply IH.
Qed.

Lemma capture_name_injective_aux d i j :
  capture_name d i = capture_name d j -> i = j.
Proof.
  unfold capture_name, Posixpath.join.
  change (Posixpath.startswith_sep ("ptb" ++ Format.d03 i ++ ".jpg"))
    with false.
  change (Posixpath.startswith_sep ("ptb" ++ Format.d03 j ++ ".jpg"))
    with false.
  cbv iota.
  destruct ((d =? "")%string || Posixpath.endswith_sep d); intros H.
  - apply append_cancel_l, append_cancel_l, append_cancel_r in H.
    exact (d03_injective _ _ H).
  - apply append_cancel_l, append_cancel_l, append_cancel_l,
      append_cancel_r in H.
    exact (d03_injective _ _ H).
Qed.

Lemma capture_names_NoDup d first count : NoDup (capture_names d first count).
Proof.
  unfold capture_names. apply NoDup_map_NoDup_ForallPairs.
  - intros i j _ _. apply capture_name_injective_aux.
  - apply seq_NoDup.
Qed.


(** ** The ticks of the capture state *)






(** ** The merged picture *)

Ltac numbered_snoc :=
  match goal with
  | Hn : captures ?a = capture_names ?d 0 _ |- _ =>
      rewrite length_app; simpl List.length;
      rewrite Nat.add_1_r, capture_names_snoc; simpl; rewrite <- Hn;
      reflexivity
  end.

Lemma process_picture_in_step w events a a' l :
  well_formed a -> picture_in_step a ->
  process w events a = Ok tt a' l -> picture_in_step a'.
Proof.
  unfold picture_in_step, well_formed. intros (_ & _ & Hwf) Hp H.
  destruct (active_state a) as [s|] eqn:Hact; [ | contradiction ].
  destruct s; exec; split_hyp H; inversion H; subst a' l; clear H;
    simpl; rewrite ?Hact; unfold merged_from in *; simpl;
    try assumption.
  all: try (destruct Hwf as (Hcap & _); repeat split; eexists;
            split; [ reflexivity | rewrite Hcap; reflexivity ]).
  all: try (destruct Hp as (Hp1 & Hp2 & d & Hd & Hn);
            inversion Hd; subst d;
            first [ do 2 eexists; repeat split;
                    [ eassumption | numbered_snoc ]
                  | repeat split; auto; eexists;
                    split; [ eassumption | numbered_snoc ] ]).
  all: try (eexists; eassumption).
  all: try (right; assumption).
Qed.

Lemma reachable_picture_in_step cfg dir a :
  reachable cfg dir a -> picture_in_step a.
Proof.
  induction 1 as [boot a l H | a w events a' l Hr IH H].
  - exec. finish H. unfold picture_in_step. simpl. left. split; reflexivity.
  - exact (process_picture_in_step _ _ _ _ _
             (reachable_well_formed _ _ _ Hr) IH H).
Qed.

Lemma merged_from_files a files p :
  merged_from a files -> previous_picture a = Some p ->
  picture_files p = files.
Proof.
  intros (d & stamp & _ & _ & Hp & _) H. rewrite Hp in H.
  inversion H. reflexivity.
Qed.

(** X10. In every reachable application the merged picture and its
    file are both set or both [None]; they are set in the processing, print
    and finish states; and a merged picture is made of the captures number
    0, 1, ... of the current cycle directory, with the two footer texts and
    the colours of the configuration, and saved in that directory under a
    name that ends with "_ptb.jpg". In the processing state its captures are
    those of [captures]. *)
Theorem merged_picture_made_of_numbered_captures
  (cfg : PtbConfigParser) (dir : string) (a : PtbApplication) :
  reachable cfg dir a ->
  (previous_picture a = None <-> previous_picture_file a = None) /\
  (active_state a = Some StateProcessing \/
   active_state a = Some StatePrint \/
   active_state a = Some StateFinish -> previous_picture a <> None) /\
  (forall p,
     previous_picture a = Some p ->
     merged_from a (picture_files p) /\
     (active_state a = Some StateProcessing ->
      picture_files p = captures a)).
Proof.
  intros Hr. pose proof (reachable_picture_in_step _ _ _ Hr) as Hp.
  unfold picture_in_step in Hp.
  destruct (reachable_well_formed _ _ _ Hr) as (_ & _ & Hwf).
  assert (Hcases :
    (previous_picture a = None /\ previous_picture_file a = None /\
     active_state a <> Some StateProcessing /\
     active_state a <> Some StatePrint /\
     active_state a <> Some StateFinish) \/
    (exists files, merged_from a files /\
       (active_state a = Some StateProcessing -> files = captures a))).
  { destruct (active_state a) as [[]|] eqn:Hact; try contradiction.
    - destruct Hp as [[H1 H2] | [files Hf]].
      + left. repeat split; auto; discriminate.
      + right. exists files. split; [ exact Hf | discriminate ].
    - destruct Hp as [[H1 H2] | [files Hf]].
      + left. repeat split; auto; discriminate.
      + right. exists files. split; [ exact Hf | discriminate ].
    - destruct Hp as (H1 & H2 & _). left. repeat split; auto; discriminate.
    - right. exists (captures a). split; [ exact Hp | reflexivity ].
    - destruct Hp as [files Hf]. right. exists files.
      split; [ exact Hf | discriminate ].
    - destruct Hp as [files Hf]. right. exists files.
      split; [ exact Hf | discriminate ]. }
  destruct Hcases as [(H1 & H2 & N1 & N2 & N3) | (files & Hf & Hproc)].
  - rewrite H1, H2. split; [ tauto | ]. split.
    + intros [E | [E | E]]; contradiction.
    + intros p E. discriminate.
  - pose proof Hf as (d & stamp & _ & _ & H1 & H2). split; [ | split ].
    + rewrite H1, H2. split; discriminate.
    + intros _. rewrite H1. discriminate.
    + intros p E. rewrite (merged_from_files a files p Hf E).
      split; [ exact Hf | exact Hproc ].
Qed.

(** X11. Two captures of one directory with different numbers have
    different file names, so no capture of a cycle overwrites another one:
    the paths in [captures] and those of a merged picture are pairwise
    distinct. *)
Theorem capture_files_are_distinct
  (cfg : PtbConfigParser) (dir : string) (a : PtbApplication) :
  reachable cfg dir a ->
  (forall d i j, capture_name d i = capture_name d j -> i = j) /\
  NoDup (captures a) /\
  (forall p, previous_picture a = Some p -> NoDup (picture_files p)).
Proof.
  intros Hr. split; [ exact capture_name_injective_aux | ].
  pose proof (reachable_picture_in_step _ _ _ Hr) as Hp.
  destruct (reachable_well_formed _ _ _ Hr) as (_ & _ & Hwf).
  assert (Hm : forall files p, merged_from a files ->
                 previous_picture a = Some p -> NoDup (picture_files p)).
  { intros files p Hf E. rewrite (merged_from_files a files p Hf E).
    destruct Hf as (d & _ & _ & Hn & _). rewrite Hn.
    apply capture_names_NoDup. }
  unfold picture_in_step in Hp.
  destruct (active_state a) as [[]|] eqn:Hact; try contradiction.
  - rewrite Hwf. split; [ constructor | ].
    intros p E. destruct Hp as [[H1 _] | [files Hf]]; [ congruence | eauto ].
  - destruct Hwf as (Hcap & _). rewrite Hcap. split; [ constructor | ].
    intros p E. destruct Hp as [[H1 _] | [files Hf]]; [ congruence | eauto ].
  - destruct Hp as (H1 & _ & d & _ & Hn). split.
    + rewrite Hn. apply capture_names_NoDup.
    + intros p E. congruence.
  - split; [ | intros p E; eauto ].
    destruct Hp as (d & _ & _ & Hn & _). rewrite Hn.
    apply capture_names_NoDup.
  - destruct Hwf as (Hcap & _). rewrite Hcap. split; [ constructor | ].
    intros p E. destruct Hp as [files Hf]. eauto.
  - rewrite Hwf. split; [ constructor | ].
    intros p E. destruct Hp as [files Hf]. eauto.
Qed.

(** ** The finders *)

Lemma find_app {A} (f : A -> bool) (l1 l2 : list A) :
  find f (l1 ++ l2) =
  match find f l1 with Some x => Some x | None => find f l2 end.
Proof.
  induction l1 as [|x l1 IH]; [ reflexivity | ].
  simpl. destruct (f x); [ reflexivity | exact IH ].
Qed.

Lemma find_rev_most_recent {A} (f : A -> bool) (pending : list A) (e : A) :
  find f (rev pending) = Some e ->
  exists older newer,
    pending = (older ++ e :: newer)%list /\ f e = true /\
    forall x, In x newer -> f x = false.
Proof.
  induction pending as [|x l IH]; [ discriminate | ].
  simpl. rewrite find_app. destruct (find f (rev l)) as [y|] eqn:Hl.
  - intros H. inversion H; subst y.
    destruct (IH eq_refl) as (older & newer & -> & He & Hnew).
    exists (x :: older), newer. repeat split; auto.
  - simpl. destruct (f x) eqn:Hx; [ | discriminate ].
    intros H. inversion H; subst x.
    exists [], l. repeat split; auto.
    intros y Hy. apply (find_none _ _ Hl). now apply in_rev in Hy.
Qed.

Lemma find_none_iff {A} (f : A -> bool) (l : list A) :
  find f l = None <-> forall x, In x l -> f x = false.
Proof.
  split; [ apply find_none | ].
  intros H. destruct (find f l) as [x|] eqn:E; [ | reflexivity ].
  apply find_some in E. destruct E as [Hin Hx].
  rewrite (H x Hin) in Hx. discriminate.
Qed.

(** X12. Each of the six finders, on the list of events as the main
    loop passes it (most recent first), returns the most recent pending
    event that passes its test, and returns [None] exactly when no pending
    event passes it. *)
Theorem finders_return_most_recent_event
  (w : World) (test : event -> bool) (finder : list event -> option event)
  (pending : list event) :
  In (test, finder) (finders w) ->
  (forall e,
     finder (rev pending) = Some e ->
     exists older newer,
       pending = (older ++ e :: newer)%list /\ test e = true /\
       forall x, In x newer -> test x = false) /\
  (finder (rev pending) = None <->
   forall x, In x pending -> test x = false).
Proof.
  intros Hin.
  assert (Hfinder : finder = find test).
  { simpl in Hin.
    repeat (destruct Hin as [Hin | Hin];
            [ inversion Hin; reflexivity | ]).
    contradiction. }
  subst finder. split.
  - intros e. apply find_rev_most_recent.
  - rewrite find_none_iff. split; intros H x Hx; apply H.
    + now apply in_rev in Hx.
    + now apply in_rev.
Qed.

(** X13. The only event that is both a picture request and a
    choice-change is the press of the picture button; no event is a print
    request and also a picture request or a choice-change; a quit event is
    nothing else; the keyboard requests that need the Control key (print,
    full screen) are not seen without it, the print button always is. *)
Theorem events_have_separate_roles (w : World) (e : event) :
  (is_picture_event e && is_choice_event e = true <->
   e = BUTTON_DOWN button_picture) /\
  is_picture_event e && is_print_event w e = false /\
  is_choice_event e && is_print_event w e = false /\
  (is_quit_event e = true ->
   is_picture_event e = false /\ is_print_event w e = false /\
   is_choice_event e = false /\ is_fullscreen_event w e = false /\
   is_resize_event e = false) /\
  (ctrl_pressed w = false ->
   forall k, is_print_event w (KEYDOWN k) = false /\
             is_fullscreen_event w (KEYDOWN k) = false) /\
  is_print_event w (BUTTON_DOWN button_print) = true.
Proof.
  repeat split.
  - destruct e as [|k|size|pin|n]; simpl; try discriminate.
    + destruct k; discriminate.
    + intros H. apply andb_true_iff in H. destruct H as [H _].
      apply Z.eqb_eq in H. now subst pin.
  - intros ->. reflexivity.
  - destruct e as [|k|size|pin|n]; simpl; try reflexivity.
    + destruct k; reflexivity.
    + destruct (Z.eqb_spec pin button_picture) as [->|]; reflexivity.
  - destruct e as [|k|size|pin|n]; simpl; try reflexivity.
    + destruct k; reflexivity.
    + destruct (Z.eqb_spec pin button_picture) as [->|]; reflexivity.
  - destruct e as [|k|size|pin|n]; simpl in *; try discriminate; auto.
    destruct k; simpl in *; try discriminate; reflexivity.
  - destruct e as [|k|size|pin|n]; simpl in *; try discriminate; auto.
    destruct k; simpl in *; try discriminate; reflexivity.
  - destruct e as [|k|size|pin|n]; simpl in *; try discriminate; auto.
    destruct k; simpl in *; try discriminate; reflexivity.
  - destruct e as [|k|size|pin|n]; simpl in *; try discriminate; auto.
    destruct k; simpl in *; try discriminate; reflexivity.
  - destruct e as [|k|size|pin|n]; simpl in *; try discriminate; auto.
  - simpl. rewrite H. apply andb_false_r.
  - simpl. rewrite H. apply andb_false_r.
Qed.

(** ** An iteration of the main loop *)

Lemma find_resize_last_size (pending : list event) :
  find_resize_event (rev pending) = option_map VIDEORESIZE (last_size pending).
Proof.
  unfold find_resize_event, last_size.
  induction pending as [|x l IH] using rev_ind; [ reflexivity | ].
  rewrite rev_app_distr, fold_left_app. simpl.
  destruct x; simpl; try exact IH; reflexivity.
Qed.

(** X14. An iteration of the main loop without quit event toggles
    the full screen once if Control-F was pressed, then resizes the window
    once to the size of the most recent resize event if there is one, and
    only then calls the state machine with all the events; an exception of
    the state machine goes on after these calls. *)
Theorem iteration_handles_window_first (w : World) (a : PtbApplication) :
  (forall e, In e (event_get w) -> is_quit_event e = false) ->
  iteration w a =
  match process w (rev (event_get w)) a with
  | Ok _ a' l => Ok (Some tt) a' (window_actions w ++ l)
  | Raise e a' l => Raise e a' (window_actions w ++ l)
  end.
Proof.
  intros Hq. unfold iteration, window_actions.
  assert (Hnone : find_quit_event (rev (event_get w)) = None).
  { apply find_none_iff. intros x Hx. apply Hq. now apply in_rev in Hx. }
  rewrite Hnone, find_resize_last_size. simpl.
  unfold bind, when, call, ret.
  destruct (found (find_fullscreen_event w (rev (event_get w))));
    destruct (last_size (event_get w)); simpl;
    destruct (process w (rev (event_get w)) a); simpl;
    rewrite ?List.app_nil_r; reflexivity.
Qed.

(** ** The main loop and the reachable applications *)

Lemma iteration_steps w a v a' l :
  iteration w a = Ok v a' l ->
  (v = None /\ a' = a) \/
  (v = Some tt /\ exists l', process w (rev (event_get w)) a = Ok tt a' l').
Proof.
  unfold iteration.
  destruct (found (find_quit_event (rev (event_get w)))).
  - intros H. inversion H. left. split; reflexivity.
  - unfold bind, when, call, ret.
    destruct (found (find_fullscreen_event w (rev (event_get w))));
      destruct (find_resize_event (rev (event_get w))) as [[]|]; simpl;
      destruct (process w (rev (event_get w)) a) as [[] a1 l1|] eqn:Hp;
      simpl; intros H; inversion H; subst; right; eauto.
Qed.

Lemma while_true_reachable cfg dir ws : forall a st a' l,
  reachable cfg dir a ->
  while_true ws a = Ok st a' l -> reachable cfg dir a'.
Proof.
  induction ws as [|w ws IH]; intros a st a' l Hr H.
  - inversion H; subst. exact Hr.
  - simpl in H. unfold bind in H.
    destruct (iteration w a) as [v a1 l1|] eqn:Hi; [ | discriminate ].
    destruct (iteration_steps _ _ _ _ _ Hi) as [[-> ->] | [-> [l' Hp]]].
    + inversion H; subst. exact Hr.
    + destruct (while_true ws a1) as [st2 a2 l2|] eqn:Hw; [ | discriminate ].
      inversion H; subst.
      exact (IH a1 _ _ _ (reachable_process _ _ _ _ _ _ _ Hr Hp) Hw).
Qed.

(** X15. Whatever the main loop has done when it returns, the
    application is a reachable one, so that every invariant of the reachable
    applications holds in the main loop: the configuration, the directory of
    the pictures and the durations of the two timers are unchanged, there is
    an active state, and the first call of the log shows the idle screen
    without picture. *)
Theorem main_loop_keeps_invariants
  (cfg : PtbConfigParser) (dir : string) (boot : World) (ws : list World)
  (st : loop_status) (a : PtbApplication) (l : list action) :
  main_loop boot ws (PtbApplication_init cfg dir) = Ok st a l ->
  reachable cfg dir a /\
  config a = cfg /\ savedir a = dir /\
  timeout (choose_timer a) = 8%Q /\ timeout (print_timer a) = 5%Q /\
  active_state a <> None /\
  hd_error l = Some (window_show_intro None).
Proof.
  intros H. unfold main_loop, try_block, bind in H.
  destruct (set_state boot "wait" (PtbApplication_init cfg dir))
    as [[] a0 l0|] eqn:Hs; [ | discriminate ].
  pose proof (reachable_start _ _ _ _ _ Hs) as Hr0.
  assert (Hl0 : l0 = [window_show_intro None]).
  { exec. inversion Hs. reflexivity. }
  destruct (while_true ws a0) as [st1 a1 l1|] eqn:Hw; [ | discriminate ].
  pose proof (while_true_reachable _ _ _ _ _ _ _ Hr0 Hw) as Hr1.
  assert (Ha : a = a1 /\ hd_error l = Some (window_show_intro None)).
  { subst l0. destruct st1; simpl in H; inversion H; subst; split;
      reflexivity. }
  destruct Ha as [-> Hhd].
  destruct (reachable_well_formed _ _ _ Hr1) as (Hc & Hp & Hwf).
  destruct (reachable_config _ _ _ Hr1) as [Hcfg Hdir].
  repeat split; auto.
  intros E. rewrite E in Hwf. exact Hwf.
Qed.

(** ** Failing hardware *)


(** ** The merged picture on the screen *)

(** X17. The merged picture of the cycle is what the screen shows
    next: the print screen when the processing state is left with a printer
    installed, and the idle screen when the finish state is left, which
    happens on its first tick. *)
Theorem merged_picture_is_shown
  (cfg : PtbConfigParser) (dir : string) (a : PtbApplication)
  (w : World) (events : list event) :
  reachable cfg dir a ->
  (active_state a = Some StateProcessing -> is_installed w = true ->
   exists p,
     previous_picture a = Some p /\
     process w events a =
       Ok tt
         (set_print_timer
            (PoolingTimer_start (time_started w) (print_timer a))
            (set_active_state (Some StatePrint) (set_captures [] a)))
         [window_show_print (Some p); switch_on led_print]) /\
  (active_state a = Some StateFinish ->
   exists p,
     previous_picture a = Some p /\
     process w events a =
       Ok tt (set_active_state (Some StateWait) a)
          [window_show_intro (Some p)]).
Proof.
  intros Hr. pose proof (reachable_picture_in_step _ _ _ Hr) as Hp.
  unfold picture_in_step in Hp. split.
  - intros Hact Hinst. rewrite Hact in Hp.
    destruct Hp as (d & stamp & _ & _ & Hpic & _).
    eexists. split; [ exact Hpic | ].
    exec. repeat (progress (rewrite ?Hact, ?Hinst; simpl)).
    rewrite Hpic. reflexivity.
  - intros Hact. rewrite Hact in Hp.
    destruct Hp as (files & d & stamp & _ & _ & Hpic & _).
    eexists. split; [ exact Hpic | ].
    exec. repeat (progress (rewrite ?Hact; simpl)).
    rewrite Hpic. reflexivity.
Qed.


(** ** The picture light *)

Lemma picture_light_app before l1 l2 :
  picture_light before (l1 ++ l2) =
  picture_light (picture_light before l1) l2.
Proof.
  revert before. induction l1 as [|x l1 IH]; intros before; [ reflexivity | ].
  simpl. apply IH.
Qed.

Lemma process_picture_light w events a a' l before :
  (before = Some true <-> taking_pictures a = true) ->
  process w events a = Ok tt a' l ->
  (picture_light before l = Some true <-> taking_pictures a' = true).
Proof.
  unfold taking_pictures. intros Hb H.
  destruct (active_state a) as [s|] eqn:Hact.
  - destruct s; exec; split_hyp H; inversion H; subst a' l; clear H;
      cbn; rewrite ?Hact; try exact Hb;
      split; intros E; try reflexivity; discriminate.
  - exec. rewrite Hact in H. inversion H; subst. cbn. rewrite Hact.
    exact Hb.
Qed.

(** X18. Over any run of the state machine from startup, the picture
    light is lit (switched on or blinking) after the last call exactly when
    the choose state or the capture state is active. *)
Theorem picture_light_on_while_taking_pictures
  (cfg : PtbConfigParser) (dir : string) (ws : list World)
  (a : PtbApplication) (l : list action) :
  run ws (started cfg dir) = Ok tt a l ->
  (picture_light None l = Some true <->
   active_state a = Some StateChoose \/ active_state a = Some StateCapture).
Proof.
  assert (Hgen : forall ws a0 before a l,
            (before = Some true <-> taking_pictures a0 = true) ->
            run ws a0 = Ok tt a l ->
            (picture_light before l = Some true <->
             taking_pictures a = true)).
  { clear. induction ws as [|w ws IH]; intros a0 before a l Hb H.
    - inversion H; subst. exact Hb.
    - simpl in H. unfold bind in H.
      destruct (process w (rev (event_get w)) a0) as [[] a1 l1|] eqn:H1;
        [ | discriminate ].
      destruct (run ws a1) as [[] a2 l2|] eqn:H2; [ | discriminate ].
      inversion H; subst. rewrite picture_light_app.
      exact (IH a1 _ a l2 (process_picture_light _ _ _ _ _ _ Hb H1) H2). }
  intros H.
  assert (H0 : None = Some true <->
               taking_pictures (started cfg dir) = true).
  { split; discriminate. }
  rewrite (Hgen ws (started cfg dir) None a l H0 H).
  unfold taking_pictures.
  destruct (active_state a) as [[]|]; split; auto; try discriminate;
    intros [E | E]; discriminate.
Qed.

(** ** The values of the shared variables *)

(** X19. In every reachable application [max_captures] is [None], the
    configured number, 1 or 4, and it is set as soon as the wait state was
    left once; [captures] is empty outside the capture and processing states;
    and as long as no cycle directory was made there is no merged picture and
    no capture. *)
Theorem shared_variables_invariants
  (cfg : PtbConfigParser) (dir : string) (a : PtbApplication) :
  reachable cfg dir a ->
  (max_captures a = None \/ max_captures a = Some (PICTURE_captures cfg) \/
   max_captures a = Some 1 \/ max_captures a = Some 4) /\
  (active_state a <> Some StateWait -> max_captures a <> None) /\
  (active_state a <> Some StateCapture ->
   active_state a <> Some StateProcessing -> captures a = []) /\
  (dirname a = None -> previous_picture a = None /\ captures a = []).
Proof.
  intros Hr.
  assert (Hmax : (max_captures a = None \/
                  max_captures a = Some (PICTURE_captures cfg) \/
                  max_captures a = Some 1 \/ max_captures a = Some 4) /\
                 (active_state a <> Some StateWait ->
                  max_captures a <> None)).
  { induction Hr as [boot a l H | a w events a' l Hr IH H].
    - exec. inversion H. simpl. split; [ now left | congruence ].
    - destruct (reachable_config _ _ _ Hr) as [Hcfg _].
      destruct (reachable_well_formed _ _ _ Hr) as (_ & _ & Hwf).
      destruct IH as [IH1 IH2].
      destruct (active_state a) as [s|] eqn:Hact; [ | contradiction ].
      destruct s; exec; split_hyp H; inversion H; subst a' l; clear H;
        simpl; rewrite ?Hact, ?Hcfg;
        (split; [ auto;
                  try (match goal with
                       | E : max_captures _ = _ |- _ => rewrite E
                       end; exact IH1)
                | try congruence;
                  try (intros _; apply IH2; discriminate) ]). }
  destruct Hmax as [Hm1 Hm2].
  pose proof (reachable_picture_in_step _ _ _ Hr) as Hp.
  destruct (reachable_well_formed _ _ _ Hr) as (_ & _ & Hwf).
  unfold picture_in_step, merged_from in Hp.
  split; [ exact Hm1 | ]. split; [ exact Hm2 | ]. split.
  - intros N1 N2.
    destruct (active_state a) as [[]|]; try contradiction;
      try congruence; try tauto.
  - intros Hd.
    destruct (active_state a) as [[]|]; try contradiction.
    + split; [ | exact Hwf ].
      destruct Hp as [[H1 _] | (files & d & stamp & Hd' & _)];
        [ exact H1 | congruence ].
    + split; [ | tauto ].
      destruct Hp as [[H1 _] | (files & d & stamp & Hd' & _)];
        [ exact H1 | congruence ].
    + destruct Hwf as [Hd' _]. contradiction.
    + destruct Hwf as [Hd' _]. contradiction.
    + destruct Hp as (files & d & stamp & Hd' & _). congruence.
    + destruct Hp as (files & d & stamp & Hd' & _). congruence.
Qed.

(** ** The print state with the flag not set *)

(** X20. With the flag [printed] not set, a tick of the print state on
    which the printer does not fail does one of three things: on a print
    request with a merged picture file, it blinks the light, prints the file
    once, sets the flag and goes to the finish state; otherwise it goes to
    the finish state when 5 seconds or more have passed since the entry; and
    otherwise it changes nothing. *)
Theorem print_state_with_flag_clear
  (w : World) (events : list event) (a : PtbApplication) (started_at : Q) :
  active_state a = Some StatePrint ->
  printed a = false ->
  print_timer a = {| timeout := 5; time := Some started_at |} ->
  print_file_fails w = false ->
  process w events a =
    if found (find_print_event w events) && truthy (previous_picture_file a)
    then Ok tt (set_active_state (Some StateFinish) (set_printed true a))
            [blink led_print; printer_print_file (previous_picture_file a);
             time_sleep (1 # 2); switch_on led_print;
             window_show_finished; time_sleep (1 # 2)]
    else if Qle_bool 5 (time_polled w - started_at)
    then Ok tt (set_active_state (Some StateFinish) a)
            [window_show_finished; time_sleep (1 # 2)]
    else Ok tt a [].
Proof.
  intros Hact Hflag Htimer Hok. exec.
  destruct (found (find_print_event w events) &&
            truthy (previous_picture_file a)) eqn:Hask;
    destruct (Qle_bool 5 (time_polled w - started_at)) eqn:Hq;
    repeat (progress (rewrite ?Hact, ?Hask, ?Hok, ?Htimer, ?Hflag, ?Hq,
                        ?orb_true_r; simpl));
    reflexivity.
Qed.

(** * The further properties on the sample surroundings *)

Lemma process_follows_workflow_sample :
  let w := world [BUTTON_DOWN button_picture] 1 "2018-03-01-10-00-01" false in
  let a := started (sample_config 1) "/home/pi/Pictures" in
  exists s',
    active_state (app_of (process w (rev (event_get w)) a)) = Some s' /\
    (s' = StateWait \/ follows StateWait s' = true).
Proof.
  intros w a.
  apply (process_follows_workflow w (rev (event_get w)) a
           (app_of (process w (rev (event_get w)) a))
           (log_of (process w (rev (event_get w)) a)) StateWait).
  - reflexivity.
  - vm_compute. reflexivity.
Defined.

(** The camera fails on the first tick of the capture state. *)
Lemma process_raises_no_internal_error_sample :
  exists e a' l,
    process (camera_broken 15) [] in_capture = Raise e a' l /\
    e <> TypeError /\ forall state_name, e <> UnknownState state_name.
Proof.
  assert (H : process (camera_broken 15) [] in_capture =
                Raise CameraError in_capture
                  (log_of (process (camera_broken 15) [] in_capture))).
  { vm_compute. reflexivity. }
  exists CameraError, in_capture,
    (log_of (process (camera_broken 15) [] in_capture)).
  split; [ exact H | ].
  refine (process_raises_no_internal_error (sample_config 4)
            "/home/pi/Pictures" in_capture (camera_broken 15) [] _ _ _ _ H).
  apply reachable_after. vm_compute. reflexivity.
Defined.

Lemma main_loop_keeps_invariants_sample :
  let boot := world [] 0 "2018-03-01-10-00-00" false in
  let ws := [world [BUTTON_DOWN button_picture] 1 "2018-03-01-10-00-01" false;
             world [QUIT] 2 "2018-03-01-10-00-02" false] in
  let a := app_of (main_loop boot ws
                     (PtbApplication_init (sample_config 1)
                        "/home/pi/Pictures")) in
  let l := log_of (main_loop boot ws
                     (PtbApplication_init (sample_config 1)
                        "/home/pi/Pictures")) in
  reachable (sample_config 1) "/home/pi/Pictures" a /\
  config a = sample_config 1 /\ savedir a = "/home/pi/Pictures" /\
  timeout (choose_timer a) = 8%Q /\ timeout (print_timer a) = 5%Q /\
  active_state a <> None /\
  hd_error l = Some (window_show_intro None).
Proof.
  intros boot ws a l.
  apply (main_loop_keeps_invariants (sample_config 1) "/home/pi/Pictures"
           boot ws left_by_break a l).
  vm_compute. reflexivity.
Defined.

Lemma shared_variables_invariants_sample :
  (max_captures in_processing = None \/
   max_captures in_processing = Some (PICTURE_captures (sample_config 1)) \/
   max_captures in_processing = Some 1 \/
   max_captures in_processing = Some 4) /\
  (active_state in_processing <> Some StateWait ->
   max_captures in_processing <> None) /\
  (active_state in_processing <> Some StateCapture ->
   active_state in_processing <> Some StateProcessing ->
   captures in_processing = []) /\
  (dirname in_processing = None ->
   previous_picture in_processing = None /\ captures in_processing = []).
Proof.
  apply (shared_variables_invariants (sample_config 1) "/home/pi/Pictures").
  apply reachable_after. vm_compute. reflexivity.
Defined.

Lemma choose_press_selects_one_or_four_sample :
  StateChoose_do_actions [KEYDOWN K_LEFT]
    (set_max_captures (Some 3)
       (PtbApplication_init (sample_config 3) "/home/pi/Pictures")) =
  Ok tt
    (set_max_captures (Some 1)
       (set_max_captures (Some 3)
          (PtbApplication_init (sample_config 3) "/home/pi/Pictures")))
    [window_show_choice (Some 1)].
Proof.
  apply (proj1 (choose_press_selects_one_or_four [KEYDOWN K_LEFT]
                  (set_max_captures (Some 3)
                     (PtbApplication_init (sample_config 3)
                        "/home/pi/Pictures")))).
  reflexivity.
Defined.

Lemma choose_leaves_on_time_whatever_events_sample :
  let w := world [BUTTON_DOWN button_picture] 10 "2018-03-01-10-00-10" false in
  exists a' l,
    process w (rev (event_get w)) in_choose = Ok tt a' l /\
    active_state a' =
      Some (if Qle_bool 8 (time_polled w - 1)
            then StateCapture else StateChoose) /\
    choose_timer a' = choose_timer in_choose /\
    max_captures a' =
      (if found (find_choice_event (rev (event_get w)))
       then Some (if neq_int (max_captures in_choose) 1 then 1 else 4)
       else max_captures in_choose).
Proof.
  intros w.
  apply (choose_leaves_on_time_whatever_events w (rev (event_get w))
           in_choose 1).
  - vm_compute. reflexivity.
  - vm_compute. reflexivity.
  - reflexivity.
Defined.


(** The processing state with four captures: the four paths of [captures],
    which are also those of the merged picture, are pairwise distinct. *)
Lemma capture_files_are_distinct_sample :
  captures four_captures_taken =
    ["/home/pi/Pictures/2018-03-01-10-00-10/ptb000.jpg";
     "/home/pi/Pictures/2018-03-01-10-00-10/ptb001.jpg";
     "/home/pi/Pictures/2018-03-01-10-00-10/ptb002.jpg";
     "/home/pi/Pictures/2018-03-01-10-00-10/ptb003.jpg"] /\
  option_map picture_files (previous_picture four_captures_taken) =
    Some (captures four_captures_taken) /\
  (forall d i j, capture_name d i = capture_name d j -> i = j) /\
  NoDup (captures four_captures_taken) /\
  (forall p, previous_picture four_captures_taken = Some p ->
             NoDup (picture_files p)).
Proof.
  split; [ vm_compute; reflexivity | ].
  split; [ vm_compute; reflexivity | ].
  apply (capture_files_are_distinct (sample_config 4) "/home/pi/Pictures"
           four_captures_taken).
  apply run_reachable_app_of.
  - apply reachable_after. vm_compute. reflexivity.
  - vm_compute. reflexivity.
Defined.

Lemma merged_picture_made_of_numbered_captures_sample :
  (previous_picture after_cycle = None <->
   previous_picture_file after_cycle = None) /\
  (active_state after_cycle = Some StateProcessing \/
   active_state after_cycle = Some StatePrint \/
   active_state after_cycle = Some StateFinish ->
   previous_picture after_cycle <> None) /\
  (forall p,
     previous_picture after_cycle = Some p ->
     merged_from after_cycle (picture_files p) /\
     (active_state after_cycle = Some StateProcessing ->
      picture_files p = captures after_cycle)).
Proof.
  apply (merged_picture_made_of_numbered_captures (sample_config 1)
           "/home/pi/Pictures").
  apply reachable_after. vm_compute. reflexivity.
Defined.

Lemma merged_picture_is_shown_sample :
  let w := world [] 17 "2018-03-01-10-00-17" false in
  let a := app_of (run (firstn 4 first_cycle)
                     (started (sample_config 1) "/home/pi/Pictures")) in
  exists p,
    previous_picture a = Some p /\
    process w [] a =
      Ok tt (set_active_state (Some StateWait) a)
         [window_show_intro (Some p)].
Proof.
  intros w a.
  refine (proj2 (merged_picture_is_shown (sample_config 1)
                   "/home/pi/Pictures" a w [] _) _).
  - apply reachable_after. vm_compute. reflexivity.
  - vm_compute. reflexivity.
Defined.

Lemma print_state_with_flag_clear_sample :
  let w := world [BUTTON_DOWN button_print] 17 "2018-03-01-10-00-17" true in
  process w (rev (event_get w)) in_print =
    if found (find_print_event w (rev (event_get w))) &&
       truthy (previous_picture_file in_print)
    then Ok tt (set_active_state (Some StateFinish)
                  (set_printed true in_print))
            [blink led_print;
             printer_print_file (previous_picture_file in_print);
             time_sleep (1 # 2); switch_on led_print;
             window_show_finished; time_sleep (1 # 2)]
    else if Qle_bool 5 (time_polled w - 16)
    then Ok tt (set_active_state (Some StateFinish) in_print)
            [window_show_finished; time_sleep (1 # 2)]
    else Ok tt in_print [].
Proof.
  intros w.
  apply (print_state_with_flag_clear w (rev (event_get w)) in_print 16).
  - vm_compute. reflexivity.
  - vm_compute. reflexivity.
  - vm_compute. reflexivity.
  - reflexivity.
Defined.

Lemma wait_serves_every_print_request_sample :
  exists l,
    run print_requests after_cycle = Ok tt after_cycle l /\
    files_printed l =
      flat_map (fun w => if print_asked w (rev (event_get w)) after_cycle
                         then [previous_picture_file after_cycle] else [])
        print_requests.
Proof.
  apply (wait_serves_every_print_request print_requests after_cycle).
  - vm_compute. reflexivity.
  - intros w [<- | [<- | [<- | []]]]; split; reflexivity.
Defined.

Lemma without_printer_nothing_print_related_sample :
  filter print_related
    (log_of (run (first_cycle ++ second_cycle)
               (started (sample_config 1) "/home/pi/Pictures"))) = [] /\
  active_state
    (app_of (run (first_cycle ++ second_cycle)
               (started (sample_config 1) "/home/pi/Pictures"))) <>
  Some StatePrint.
Proof.
  apply (without_printer_nothing_print_related (sample_config 1)
           "/home/pi/Pictures" (first_cycle ++ second_cycle)).
  intros w [<- | [<- | [<- | [<- | [<- |
            [<- | [<- | [<- | [<- | [<- | []]]]]]]]]]]; reflexivity.
Defined.

Lemma camera_used_only_while_previewing_sample :
  camera_protocol false
    (log_of (run (firstn 2 first_cycle)
               (started (sample_config 4) "/home/pi/Pictures"))) =
  Some (capturing in_capture).
Proof.
  apply (camera_used_only_while_previewing (sample_config 4)
           "/home/pi/Pictures" (firstn 2 first_cycle)).
  vm_compute. reflexivity.
Defined.

Lemma picture_light_on_while_taking_pictures_sample :
  picture_light None
    (log_of (run (firstn 2 first_cycle)
               (started (sample_config 4) "/home/pi/Pictures"))) =
  Some true <->
  active_state in_capture = Some StateChoose \/
  active_state in_capture = Some StateCapture.
Proof.
  apply (picture_light_on_while_taking_pictures (sample_config 4)
           "/home/pi/Pictures" (firstn 2 first_cycle)).
  vm_compute. reflexivity.
Defined.


Lemma finders_return_most_recent_event_sample :
  let pending := [VIDEORESIZE (640, 480); QUIT; VIDEORESIZE (800, 480)] in
  exists older newer,
    pending = (older ++ VIDEORESIZE (800, 480) :: newer)%list /\
    is_resize_event (VIDEORESIZE (800, 480)) = true /\
    forall x, In x newer -> is_resize_event x = false.
Proof.
  intros pending.
  refine (proj1 (finders_return_most_recent_event
                   (world [] 0 "" false) is_resize_event find_resize_event
                   pending _) (VIDEORESIZE (800, 480)) _).
  - simpl. tauto.
  - reflexivity.
Defined.

Lemma events_have_separate_roles_sample :
  is_picture_event QUIT = false /\
  is_print_event (world [] 0 "" false) QUIT = false /\
  is_choice_event QUIT = false /\
  is_fullscreen_event (world [] 0 "" false) QUIT = false /\
  is_resize_event QUIT = false.
Proof.
  refine (proj1 (proj2 (proj2 (proj2
            (events_have_separate_roles (world [] 0 "" false) QUIT)))) _).
  reflexivity.
Defined.

Lemma iteration_handles_window_first_sample :
  iteration resized_twice (started (sample_config 1) "/home/pi/Pictures") =
  match process resized_twice (rev (event_get resized_twice))
          (started (sample_config 1) "/home/pi/Pictures") with
  | Ok _ a' l => Ok (Some tt) a' (window_actions resized_twice ++ l)
  | Raise e a' l => Raise e a' (window_actions resized_twice ++ l)
  end /\
  window_actions resized_twice =
    [window_toggle_fullscreen; window_resize (800, 480)].
Proof.
  split; [ | reflexivity ].
  apply (iteration_handles_window_first resized_twice).
  intros e [<- | [<- | [<- | []]]]; reflexivity.
Defined.
